(** * librequests: a shallow embedding of [requests.c]

    The development follows the C file function by function.  Memory is
    modelled by ownership: a pointer is either [Null], [Wild]
    (uninitialised or dangling) or the [Block] it points to, a block of
    bytes being the list of its bytes, terminator included.  Every access
    outside a block, every use of a wild pointer and every write past the
    end of an array is undefined behaviour, reported as [Undef].

    Integer types are those of an LP64 target: [size_t] is 64 bits wide
    and wraps around, [int] and [long] are signed; pointers are 8 bytes.

    What the program does not decide is an input of the functions: the
    answers of the allocator, what [uname] reports, and what the transport
    engine does during an exchange (which callbacks it makes, on which
    buffers, the outcome and the status code it reports). *)

From Stdlib Require Import ZArith Zquot Lia Strings.Byte.
From stdpp Require Import base list strings.

#[local] Open Scope Z_scope.

(** ** Results of C computations *)

Inductive res (A : Type) : Type :=
| Undef : res A
| Done (a : A) : res A.
Arguments Undef {A}.
Arguments Done {A} a.

#[global] Instance res_bind : MBind res := fun A B k r =>
  match r with
  | Undef => Undef
  | Done a => k a
  end.
#[global] Instance res_ret : MRet res := fun A a => Done a.

(** ** Machine integers *)

Module C.
Definition SIZE_MOD : Z := 2 ^ 64.
Definition SIZE_MAX : Z := SIZE_MOD - 1.
Definition INT_MAX : Z := 2 ^ 31 - 1.
(** [sizeof(char * )] *)
Definition PTR_SIZE : Z := 8.
(** Arithmetic on [size_t] is modulo [2^64]. *)
Definition size_t (z : Z) : Z := z mod SIZE_MOD.
Definition CURLE_OK : Z := 0.
Definition CURLE_OUT_OF_MEMORY : Z := 27.
End C.

(** ** Pointers and blocks *)

Inductive ptr (A : Type) : Type :=
| Null : ptr A
| Wild : ptr A
| Block (a : A) : ptr A.
Arguments Null {A}.
Arguments Wild {A}.
Arguments Block {A} a.

Abbreviation block := (list byte).
(** A [char **] array: one slot per complete pointer. *)
Abbreviation strv := (list (ptr block)).

Definition is_null {A} (p : ptr A) : bool :=
  match p with Null => true | _ => false end.

#[global] Instance byte_eq_decision : EqDecision byte := Byte.byte_eq_dec.

Definition is_nul (b : byte) : bool := Byte.eqb b x00.

(** A string literal, with its terminator. *)
Definition lit (s : string) : block := String.list_byte_of_string s ++ [x00].

(** [free(p)]: a no-op on [NULL], undefined on a pointer that does not
    come from the allocator; the freed pointer dangles afterwards. *)
Definition free {A} (p : ptr A) : res (ptr A) :=
  match p with
  | Null => Done Null
  | Wild => Undef
  | Block _ => Done Wild
  end.

(** [realloc(p, n)] on a byte block.  [fresh] is the allocator's answer:
    [None] when it fails, otherwise the indeterminate contents of the bytes
    the new block has beyond the old one. *)
Definition realloc (p : ptr block) (n : Z) (fresh : option (nat -> byte))
  : res (ptr block) :=
  match p with
  | Wild => Undef
  | Null =>
      match fresh with
      | None => Done Null
      | Some junk => Done (Block (map junk (seq 0 (Z.to_nat n))))
      end
  | Block old =>
      match fresh with
      | None => Done Null
      | Some junk =>
          Done (Block (take (Z.to_nat n) old ++
                       map junk (seq (length old) (Z.to_nat n - length old))))
      end
  end.

(** [realloc(v, n)] on a [char **] array of [n] bytes, that is [n / 8]
    slots; the new slots hold indeterminate pointers. *)
Definition realloc_strv (v : ptr strv) (n : Z) (ok : bool) : res (ptr strv) :=
  let slots := Z.to_nat (n / C.PTR_SIZE) in
  match v with
  | Wild => Undef
  | Null => Done (if ok then Block (replicate slots Wild) else Null)
  | Block old =>
      Done (if ok
            then Block (take slots old ++ replicate (slots - length old) Wild)
            else Null)
  end.

(** ** The C string functions used by the library *)

Module CString.

(** [strlen(s)]: the number of bytes before the first zero byte; reading
    past the end of the block is undefined. *)
Fixpoint strlen (s : block) : res nat :=
  match s with
  | [] => Undef
  | b :: s' => if is_nul b then Done O else k ← strlen s'; Done (S k)
  end.

(** [strnlen(s, n)]: as [strlen], looking at [n] bytes at most. *)
Fixpoint strnlen (s : block) (n : nat) : res nat :=
  match n with
  | O => Done O
  | S n' =>
      match s with
      | [] => Undef
      | b :: s' => if is_nul b then Done O else k ← strnlen s' n'; Done (S k)
      end
  end.

(** [strndup(s, n)]: the length is measured first, then the copy is
    allocated ([ok] tells whether that succeeds) and terminated. *)
Definition strndup (s : block) (n : Z) (ok : bool) : res (ptr block) :=
  len ← strnlen s (Z.to_nat n);
  Done (if ok then Block (take len s ++ [x00]) else Null).

(** [strncat(dest, src, n)]: at most [n] bytes of [src] and a terminator
    are written at the end of the string held in [dest]. *)
Definition strncat (dest src : block) (n : Z) : res block :=
  k ← strlen dest;
  ss ← strnlen src (Z.to_nat n);
  if decide (k + ss + 1 <= length dest)%nat
  then Done (take k dest ++ take ss src ++ [x00] ++ drop (k + ss + 1) dest)
  else Undef.

(** [strcmp(a, l) == 0] for a literal [l] given without its terminator. *)
Fixpoint strcmp_eq (a : block) (l : list byte) : res bool :=
  match a with
  | [] => Undef
  | b :: a' =>
      match l with
      | [] => Done (is_nul b)
      | c :: l' => if Byte.eqb b c then strcmp_eq a' l' else Done false
      end
  end.

(** [snprintf(buf, n, "%s", s)] for an already formatted [s]: at most
    [n - 1] bytes and a terminator, nothing at all when [n] is zero. *)
Definition snprintf (buf : block) (n : nat) (s : list byte) : res block :=
  if decide (n <= length buf)%nat
  then match n with
       | O => Done buf
       | S m => Done (take m s ++ [x00] ++ drop (length (take m s) + 1) buf)
       end
  else Undef.

(** The text of a C string: its bytes before the terminator. *)
Definition text_of (s : block) : res (list byte) :=
  k ← strlen s; Done (take k s).

End CString.

(** ** The request context, [req_t] *)

(** Modelled from the spec: the declaration of [req_t] is in [requests.h],
    which is not among the sources.  The fields are those the functions
    use and section 3 of the specification lists, with the types their
    uses show: [code] receives a [long], [size] is added a [size_t], the
    two counts are compared with an [int], and [ok] is assigned [-1]. *)
Record req_t : Type := mk_req {
  code : Z;                 (* long *)
  url : ptr block;          (* borrowed *)
  text : ptr block;
  size : Z;                 (* size_t *)
  req_hdrv : ptr strv;
  req_hdrc : Z;             (* int *)
  resp_hdrv : ptr strv;
  resp_hdrc : Z;            (* int *)
  ok : Z                    (* int *)
}.

Definition set_code (v : Z) (r : req_t) : req_t :=
  mk_req v (url r) (text r) (size r) (req_hdrv r) (req_hdrc r)
         (resp_hdrv r) (resp_hdrc r) (ok r).
Definition set_url (v : ptr block) (r : req_t) : req_t :=
  mk_req (code r) v (text r) (size r) (req_hdrv r) (req_hdrc r)
         (resp_hdrv r) (resp_hdrc r) (ok r).
Definition set_text (v : ptr block) (r : req_t) : req_t :=
  mk_req (code r) (url r) v (size r) (req_hdrv r) (req_hdrc r)
         (resp_hdrv r) (resp_hdrc r) (ok r).
Definition set_size (v : Z) (r : req_t) : req_t :=
  mk_req (code r) (url r) (text r) v (req_hdrv r) (req_hdrc r)
         (resp_hdrv r) (resp_hdrc r) (ok r).
Definition set_req_hdrv (v : ptr strv) (r : req_t) : req_t :=
  mk_req (code r) (url r) (text r) (size r) v (req_hdrc r)
         (resp_hdrv r) (resp_hdrc r) (ok r).
Definition set_req_hdrc (v : Z) (r : req_t) : req_t :=
  mk_req (code r) (url r) (text r) (size r) (req_hdrv r) v
         (resp_hdrv r) (resp_hdrc r) (ok r).
Definition set_resp_hdrv (v : ptr strv) (r : req_t) : req_t :=
  mk_req (code r) (url r) (text r) (size r) (req_hdrv r) (req_hdrc r)
         v (resp_hdrc r) (ok r).
Definition set_resp_hdrc (v : Z) (r : req_t) : req_t :=
  mk_req (code r) (url r) (text r) (size r) (req_hdrv r) (req_hdrc r)
         (resp_hdrv r) v (ok r).
Definition set_ok (v : Z) (r : req_t) : req_t :=
  mk_req (code r) (url r) (text r) (size r) (req_hdrv r) (req_hdrc r)
         (resp_hdrv r) (resp_hdrc r) v.

(** [check_ok]: response codes of 400 and more, and 0, are not ok. *)
Definition check_ok (req : req_t) : req_t :=
  if (code req >=? 400) || (code req =? 0)
  then set_ok 0 req
  else set_ok 1 req.

(** ** The two callbacks *)

(** What the allocator answers during one callback invocation. *)
Record allocs : Type := mk_allocs {
  a_realloc : option (nat -> byte);
  a_strndup : bool
}.

Definition alloc_ok (a : allocs) : Prop :=
  is_Some (a_realloc a) /\ a_strndup a = true.

(** [resp_callback]: [content] is the engine's buffer from the delivered
    chunk on; the chunk is its first [size * nmemb] bytes. *)
Definition resp_callback (content : block) (size_ nmemb : Z)
    (userdata : req_t) (a : allocs) : res (Z * req_t) :=
  let real_size := C.size_t (size_ * nmemb) in
  p ← realloc (text userdata)
               (C.size_t (size userdata + real_size + 1)) (a_realloc a);
  let userdata := set_text p userdata in
  match p with
  | Block buf =>
      let userdata := set_size (C.size_t (size userdata + real_size)) userdata in
      responsetext ← CString.strndup content (C.size_t (real_size + 1))
                                      (a_strndup a);
      match responsetext with
      | Block rt =>
          buf' ← CString.strncat buf rt real_size;
          Done (real_size, set_text (Block buf') userdata)
      | _ => Done (C.SIZE_MAX, userdata)
      end
  | _ => Done (C.SIZE_MAX, userdata)
  end.

(** [header_callback]: the line ["\r\n"] is skipped, any other line is
    duplicated into a new last slot of [resp_hdrv]. *)
Definition header_callback (content : block) (size_ nmemb : Z)
    (userdata : req_t) (a : allocs) : res (Z * req_t) :=
  let real_size := C.size_t (size_ * nmemb) in
  let current_size := C.size_t (resp_hdrc userdata * C.PTR_SIZE) in
  blank ← CString.strcmp_eq content [x0d; x0a];
  if (blank : bool) then Done (real_size, userdata)
  else
    v ← realloc_strv (resp_hdrv userdata)
                      (C.size_t (current_size + C.PTR_SIZE))
                      (bool_decide (is_Some (a_realloc a)));
    let userdata := set_resp_hdrv v userdata in
    match v with
    | Block slots =>
        if decide (resp_hdrc userdata = C.INT_MAX) then Undef
        else
          let userdata := set_resp_hdrc (resp_hdrc userdata + 1) userdata in
          line ← CString.strndup content (C.size_t (size_ * nmemb + 1))
                                  (a_strndup a);
          let i := resp_hdrc userdata - 1 in
          if decide (0 <= i < Z.of_nat (length slots))
          then Done (real_size,
                     set_resp_hdrv (Block (<[Z.to_nat i := line]> slots)) userdata)
          else Undef
    | _ => Done (C.SIZE_MAX, userdata)
    end.

(** ** Lifecycle: [requests_init] and [requests_close] *)

(** [for (i = 0; i < n; i++) free(v[i]);] with [count] iterations left. *)
Fixpoint free_strings (count : nat) (i : nat) (v : ptr strv) : res (ptr strv) :=
  match count with
  | O => Done v
  | S count' =>
      match v with
      | Block slots =>
          match slots !! i with
          | Some p =>
              p' ← free p;
              free_strings count' (S i) (Block (<[i := p']> slots))
          | None => Undef
          end
      | _ => Undef
      end
  end.

(** [requests_close]; the first component of the state is the file-scope
    flag [IS_FIRST]. *)
Definition requests_close (st : Z * req_t) : res (Z * req_t) :=
  let req := st.2 in
  resp ← free_strings (Z.to_nat (resp_hdrc req)) 0 (resp_hdrv req);
  reqv ← free_strings (Z.to_nat (req_hdrc req)) 0 (req_hdrv req);
  t ← free (text req);
  resp ← free resp;
  reqv ← free reqv;
  Done (1, set_req_hdrv reqv (set_resp_hdrv resp (set_text t req))).

(** What the three [calloc(1, 1)] of [requests_init] answer. *)
Record init_allocs : Type := mk_init_allocs {
  ia_text : bool;
  ia_req_hdrv : bool;
  ia_resp_hdrv : bool
}.

(** ** The transport engine *)

Inductive CURLoption : Type :=
| CURLOPT_URL | CURLOPT_WRITEFUNCTION | CURLOPT_WRITEDATA
| CURLOPT_HEADERFUNCTION | CURLOPT_HEADERDATA | CURLOPT_USERAGENT
| CURLOPT_POSTFIELDS | CURLOPT_HTTPHEADER | CURLOPT_CUSTOMREQUEST
| CURLOPT_POST.

#[global] Instance CURLoption_eq_dec : EqDecision CURLoption.
Proof. solve_decision. Defined.

Inductive callback : Type := Resp_callback | Header_callback.

(** A [struct curl_slist *]: the strings in order, [NULL] being empty. *)
Abbreviation curl_slist := (list block).

Inductive optval : Type :=
| Unset
| OptStr (s : ptr block)
| OptLong (n : Z)
| OptFun (f : callback)
| OptCtx                       (* the address of the request context *)
| OptList (l : curl_slist).

(** An easy handle: its options, the option sets of the exchanges performed
    with it so far, the last response code, and whether it is still live. *)
Record CURL : Type := mk_curl {
  options : CURLoption -> optval;
  performed : list (CURLoption -> optval);
  response_code : Z;
  live : bool
}.

Definition curl_easy_init_handle : CURL :=
  mk_curl (fun _ => Unset) [] 0 true.

Definition curl_easy_setopt (h : CURL) (o : CURLoption) (v : optval) : CURL :=
  mk_curl (fun o' => if decide (o' = o) then v else options h o')
          (performed h) (response_code h) (live h).

Definition curl_easy_cleanup (h : CURL) : CURL :=
  mk_curl (options h) (performed h) (response_code h) false.

(** [curl_slist_append]: the engine keeps a copy of the string; when its
    allocation fails ([ok] false) it returns [NULL], the list given being
    left as it was. *)
Definition curl_slist_append (ok : bool) (l : curl_slist) (s : block)
  : res curl_slist :=
  t ← CString.text_of s; Done (if ok then l ++ [t ++ [x00]] else []).

(** One invocation of a callback by the engine. *)
Record delivery : Type := mk_delivery {
  d_content : block;
  d_size : Z;
  d_nmemb : Z;
  d_allocs : allocs
}.

Inductive event : Type :=
| Body (d : delivery)
| Header (d : delivery).

(** What the engine does during one [curl_easy_perform]: the callbacks it
    makes, the outcome it returns and the status code it then reports. *)
Record exchange : Type := mk_exchange {
  x_events : list event;
  x_rc : Z;
  x_code : Z
}.

Definition call_sink (f data : optval) (d : delivery) (req : req_t)
  : res (Z * req_t) :=
  match f, data with
  | OptFun Resp_callback, OptCtx =>
      resp_callback (d_content d) (d_size d) (d_nmemb d) req (d_allocs d)
  | OptFun Header_callback, OptCtx =>
      header_callback (d_content d) (d_size d) (d_nmemb d) req (d_allocs d)
  | _, _ => Done (C.size_t (d_size d * d_nmemb d), req)
  end.

Fixpoint deliver (opts : CURLoption -> optval) (evs : list event) (req : req_t)
  : res req_t :=
  match evs with
  | [] => Done req
  | Body d :: evs' =>
      r ← call_sink (opts CURLOPT_WRITEFUNCTION) (opts CURLOPT_WRITEDATA) d req;
      deliver opts evs' r.2
  | Header d :: evs' =>
      r ← call_sink (opts CURLOPT_HEADERFUNCTION) (opts CURLOPT_HEADERDATA) d req;
      deliver opts evs' r.2
  end.

Definition curl_easy_perform (h : CURL) (x : exchange) (req : req_t)
  : res (Z * CURL * req_t) :=
  if live h then
    req' ← deliver (options h) (x_events x) req;
    Done (x_rc x,
          mk_curl (options h) (performed h ++ [options h]) (x_code x) true,
          req')
  else Undef.

(** [requests_init]; [handle] is what [curl_easy_init] answers.  The one
    byte that [calloc(1, 1)] gives a [char **] array holds no slot. *)
Definition requests_init (st : Z * req_t) (a : init_allocs) (handle : ptr CURL)
  : res (ptr CURL * (Z * req_t)) :=
  st ← (if st.1 =? 0 then requests_close st else Done st);
  let is_first := st.1 in
  let req := st.2 in
  let req := set_code 0 req in
  let req := set_url Null req in
  let req := set_size 0 req in
  let req := set_req_hdrc 0 req in
  let req := set_resp_hdrc 0 req in
  let req := set_ok (-1) req in
  let req := set_text (if ia_text a then Block [x00] else Null) req in
  if is_null (text req) then Done (Null, (is_first, req))
  else
    let req := set_req_hdrv (if ia_req_hdrv a then Block [] else Null) req in
    if is_null (req_hdrv req) then Done (Null, (is_first, req))
    else
      let req := set_resp_hdrv (if ia_resp_hdrv a then Block [] else Null) req in
      if is_null (resp_hdrv req) then Done (Null, (is_first, req))
      else Done (handle, (0, req)).

(** ** Requests *)

(** The system the library runs on: what [uname] reports, whether the
    [malloc] of the user agent succeeds, what fresh memory holds, and
    which calls of [curl_slist_append] succeed during a request: call 0 is
    the one for ["Content-Length: 0"], call [S i] the one for the custom
    header at index [i]. *)
Record environment : Type := mk_env {
  sysname : block;
  release : block;
  ua_malloc : bool;
  junk : nat -> byte;
  slist_ok : nat -> bool
}.

(** An uninitialised array of [n] bytes (none when [n] is zero). *)
Definition uninit (env : environment) (n : Z) : block :=
  map (junk env) (seq 0 (Z.to_nat n)).

Definition user_agent (env : environment) : res (ptr block) :=
  let basic := lit "librequests/0.1" in
  b ← CString.text_of basic;
  kernel ← CString.text_of (sysname env);
  version ← CString.text_of (release env);
  let ua_size :=
    3 + (Z.of_nat (length b) + Z.of_nat (length kernel) + Z.of_nat (length version)) in
  if ua_malloc env then
    ua ← CString.snprintf (uninit env ua_size) (Z.to_nat ua_size)
           (b ++ [x20] ++ kernel ++ [x2f] ++ version);
    Done (Block ua)
  else Done Null.

Definition common_opt (curl : CURL) (req : req_t) : CURL :=
  let curl := curl_easy_setopt curl CURLOPT_URL (OptStr (url req)) in
  let curl := curl_easy_setopt curl CURLOPT_WRITEFUNCTION (OptFun Resp_callback) in
  let curl := curl_easy_setopt curl CURLOPT_WRITEDATA OptCtx in
  let curl := curl_easy_setopt curl CURLOPT_HEADERFUNCTION (OptFun Header_callback) in
  curl_easy_setopt curl CURLOPT_HEADERDATA OptCtx.

(** The tail shared by both pipelines, from [curl_easy_perform] on.  The
    list of outgoing headers that [requests_pt] releases here belongs to
    the engine and is not tracked. *)
Definition perform_and_finish (curl : CURL) (req : req_t) (ua : ptr block)
    (x : exchange) : res (Z * CURL * req_t) :=
  '(rc, curl, req) ← curl_easy_perform curl x req;
  if decide (rc <> C.CURLE_OK) then Done (rc, curl, req)
  else
    let code_ := response_code curl in
    let req := set_code code_ req in
    let req := check_ok req in
    _ ← free ua;
    Done (rc, curl_easy_cleanup curl, req).

Definition requests_get (curl : CURL) (req : req_t) (url_ : ptr block)
    (env : environment) (x : exchange) : res (Z * CURL * req_t) :=
  ua ← user_agent env;
  let req := set_url url_ req in
  let curl := common_opt curl req in
  let curl := curl_easy_setopt curl CURLOPT_WRITEFUNCTION (OptFun Resp_callback) in
  let curl := curl_easy_setopt curl CURLOPT_WRITEDATA OptCtx in
  let curl := curl_easy_setopt curl CURLOPT_USERAGENT (OptStr ua) in
  perform_and_finish curl req ua x.

(** The loop of [requests_pt] over the custom headers, [count] iterations
    left from index [i]; [al i] tells whether the [realloc] and the
    [strndup] of iteration [i] succeed, [sl (S i)] whether its
    [curl_slist_append] does.  The result of the append is assigned to
    [slist] unchecked.  The boolean of the result is false when the loop
    leaves the function with [CURLE_OUT_OF_MEMORY]. *)
Fixpoint pt_headers (count : nat) (i : nat) (custom_hdrv : strv)
    (al : nat -> bool * bool) (sl : nat -> bool) (slist : curl_slist)
    (req : req_t)
  : res (bool * curl_slist * req_t) :=
  match count with
  | O => Done (true, slist, req)
  | S count' =>
      match custom_hdrv !! i with
      | Some (Block h) =>
          slist ← curl_slist_append (sl (S i)) slist h;
          let current_size := C.size_t (req_hdrc req * C.PTR_SIZE) in
          v ← realloc_strv (req_hdrv req) (C.size_t (current_size + C.PTR_SIZE))
                           (al i).1;
          let req := set_req_hdrv v req in
          match v with
          | Block slots =>
              if decide (req_hdrc req = C.INT_MAX) then Undef
              else
                let req := set_req_hdrc (req_hdrc req + 1) req in
                len ← CString.strlen h;
                dup ← CString.strndup h (Z.of_nat len) (al i).2;
                let j := req_hdrc req - 1 in
                if decide (0 <= j < Z.of_nat (length slots))
                then pt_headers count' (S i) custom_hdrv al sl slist
                       (set_req_hdrv (Block (<[Z.to_nat j := dup]> slots)) req)
                else Undef
          | _ => Done (false, slist, req)
          end
      | _ => Undef
      end
  end.

Definition requests_pt (curl : CURL) (req : req_t) (url_ data : ptr block)
    (custom_hdrv : ptr strv) (custom_hdrc : Z) (put_flag : Z)
    (env : environment) (al : nat -> bool * bool) (x : exchange)
  : res (Z * CURL * req_t) :=
  ua ← user_agent env;
  let req := set_url url_ req in
  (* body data *)
  '(curl, slist) ←
    (if negb (is_null data)
     then Done (curl_easy_setopt curl CURLOPT_POSTFIELDS (OptStr data),
                ([] : curl_slist))
     else
       (* content length header defaults to -1, so it is set to 0 by hand *)
       slist ← curl_slist_append (slist_ok env 0) [] (lit "Content-Length: 0");
       Done (if is_null custom_hdrv
             then curl_easy_setopt curl CURLOPT_HTTPHEADER (OptList slist)
             else curl, slist));
  (* headers *)
  '(filled, curl, req) ←
    (match custom_hdrv with
     | Null => Done (true, curl, req)
     | Wild =>
         if decide (0 < custom_hdrc) then Undef
         else Done (true,
                    curl_easy_setopt curl CURLOPT_HTTPHEADER (OptList slist),
                    req)
     | Block v =>
         '(filled, slist, req) ←
           pt_headers (Z.to_nat custom_hdrc) 0 v al (slist_ok env) slist req;
         Done (filled,
               if (filled : bool)
               then curl_easy_setopt curl CURLOPT_HTTPHEADER (OptList slist)
               else curl,
               req)
     end);
  if negb filled then Done (C.CURLE_OUT_OF_MEMORY, curl, req)
  else
    let curl := common_opt curl req in
    let curl :=
      if decide (put_flag <> 0)
      then curl_easy_setopt curl CURLOPT_CUSTOMREQUEST (OptStr (Block (lit "PUT")))
      else curl_easy_setopt curl CURLOPT_POST (OptLong 1) in
    let curl := curl_easy_setopt curl CURLOPT_USERAGENT (OptStr ua) in
    perform_and_finish curl req ua x.

Definition requests_post (curl : CURL) (req : req_t) (url_ data : ptr block)
    (env : environment) (x : exchange) : res (Z * CURL * req_t) :=
  requests_pt curl req url_ data Null 0 0 env (fun _ => (true, true)) x.

Definition requests_put (curl : CURL) (req : req_t) (url_ data : ptr block)
    (env : environment) (x : exchange) : res (Z * CURL * req_t) :=
  requests_pt curl req url_ data Null 0 1 env (fun _ => (true, true)) x.

Definition requests_post_headers (curl : CURL) (req : req_t)
    (url_ data : ptr block) (resp_hdrv_ : ptr strv) (resp_hdrc_ : Z)
    (env : environment) (al : nat -> bool * bool) (x : exchange)
  : res (Z * CURL * req_t) :=
  requests_pt curl req url_ data resp_hdrv_ resp_hdrc_ 0 env al x.

Definition requests_put_headers (curl : CURL) (req : req_t)
    (url_ data : ptr block) (resp_hdrv_ : ptr strv) (resp_hdrc_ : Z)
    (env : environment) (al : nat -> bool * bool) (x : exchange)
  : res (Z * CURL * req_t) :=
  requests_pt curl req url_ data resp_hdrv_ resp_hdrc_ 1 env al x.

(** ** The key/value encoder *)

Section Encoder.

(** [curl_easy_escape], the engine's percent-encoding of the given bytes,
    returned as a C string. *)
Variable curl_easy_escape : list byte -> block.

(** [for (i = 0; i < data_size; i++) total_size += strlen(data[i]);] *)
Fixpoint sum_lengths (count : nat) (i : nat) (data : strv) (total_size : Z)
  : res Z :=
  match count with
  | O => Done total_size
  | S count' =>
      match data !! i with
      | Some (Block tmp) =>
          tmp_len ← CString.strlen tmp;
          sum_lengths count' (S i) data (C.size_t (total_size + Z.of_nat tmp_len))
      | _ => Undef
      end
  end.

(** [for (i = 0; i < data_size; i += 2)], [count] iterations left. *)
Fixpoint assemble (count : nat) (i : nat) (data : strv) (env : environment)
    (encoded : block) : res block :=
  match count with
  | O => Done encoded
  | S count' =>
      match data !! i, data !! (i + 1)%nat with
      | Some (Block key), Some (Block val) =>
          k ← CString.text_of key;
          v ← CString.text_of val;
          let offset := if decide (i = O) then 2 else 3 in
          let term_size :=
            C.size_t (Z.of_nat (length k) + Z.of_nat (length v) + offset) in
          term ← CString.snprintf (uninit env term_size) (Z.to_nat term_size)
                   (if decide (i = O) then k ++ [x3d] ++ v
                    else [x26] ++ k ++ [x3d] ++ v);
          len ← CString.strlen term;
          encoded ← CString.strncat encoded term (Z.of_nat len);
          assemble count' (i + 2)%nat data env encoded
      | _, _ => Undef
      end
  end.

Definition requests_url_encode (data : strv) (data_size : Z)
    (env : environment) : res (ptr block) :=
  if decide (Z.rem data_size 2 <> 0) then Done Null
  else
    total_size ← sum_lengths (Z.to_nat data_size) 0 data 0;
    encoded ← CString.snprintf (uninit env total_size) (Z.to_nat total_size) [];
    encoded ← assemble (Z.to_nat ((data_size + 1) / 2)) 0 data env encoded;
    plain ← CString.text_of encoded;
    Done (Block (curl_easy_escape plain)).

End Encoder.

(** ** Vocabulary of the statements *)

(** The bytes of [l] before its first zero byte: what a C string function
    sees of [l]. *)
Fixpoint until_nul (l : list byte) : list byte :=
  match l with
  | [] => []
  | b :: l' => if is_nul b then [] else b :: until_nul l'
  end.

Definition nul_free (l : list byte) : Prop := Forall (fun b => b <> x00) l.

(** The number of bytes of a delivery and the bytes themselves. *)
Definition byte_count (d : delivery) : Z := d_size d * d_nmemb d.
Definition chunk (d : delivery) : list byte :=
  take (Z.to_nat (byte_count d)) (d_content d).
Definition total_bytes (ds : list delivery) : Z :=
  foldr (fun d acc => byte_count d + acc) 0 ds.

(** A delivery as the engine makes it: [size] and [nmemb] are [size_t]
    values, and the engine's buffer holds the chunk and at least one more
    byte ([strndup] is asked to look at [size * nmemb + 1] bytes), which
    together fit the address space. *)
Record delivered (d : delivery) : Prop := mk_delivered {
  dl_size : 0 <= d_size d;
  dl_nmemb : 0 <= d_nmemb d;
  dl_fits : byte_count d < C.SIZE_MAX;
  dl_readable : (Z.to_nat (byte_count d) < length (d_content d))%nat
}.

(** The engine calling [resp_callback], resp. [header_callback], once per
    delivery, whatever each call returns. *)
Fixpoint resp_callbacks (ds : list delivery) (req : req_t) : res req_t :=
  match ds with
  | [] => Done req
  | d :: ds' =>
      r ← resp_callback (d_content d) (d_size d) (d_nmemb d) req (d_allocs d);
      resp_callbacks ds' r.2
  end.

Fixpoint header_callbacks (ds : list delivery) (req : req_t) : res req_t :=
  match ds with
  | [] => Done req
  | d :: ds' =>
      r ← header_callback (d_content d) (d_size d) (d_nmemb d) req (d_allocs d);
      header_callbacks ds' r.2
  end.

(** The context as a successful [requests_init] leaves it. *)
Definition fresh_req : req_t :=
  mk_req 0 Null (Block [x00]) 0 (Block []) 0 (Block []) 0 (-1).

(** The body buffer holds the C string [body] in [size + 1] bytes. *)
Definition body_inv (req : req_t) (body : list byte) : Prop :=
  exists buf, text req = Block buf /\
              Z.of_nat (length buf) = size req + 1 /\
              x00 ∈ buf /\ until_nul buf = body.

(** [req'] differs from [req] in the body buffer and its length at most. *)
Definition same_but_body (req req' : req_t) : Prop :=
  code req' = code req /\ url req' = url req /\ ok req' = ok req /\
  req_hdrv req' = req_hdrv req /\ req_hdrc req' = req_hdrc req /\
  resp_hdrv req' = resp_hdrv req /\ resp_hdrc req' = resp_hdrc req.

(** The blank line that ends the headers. *)
Definition CRLF : list byte := [x0d; x0a].

(** A header line delivered as a C string: no zero byte in the line and
    one right after it. *)
Record c_line (d : delivery) : Prop := mk_c_line {
  cl_delivered : delivered d;
  cl_free : nul_free (chunk d);
  cl_term : d_content d !! Z.to_nat (byte_count d) = Some x00
}.

(** The copies [header_callback] is expected to keep of the lines [ds]. *)
Definition stored_lines (ds : list delivery) : strv :=
  map (fun d => Block (chunk d ++ [x00]))
      (filter (fun d => chunk d <> CRLF) ds).

(** [resp_hdrv] is an array of exactly [resp_hdrc] slots. *)
Definition resp_inv (req : req_t) (slots : strv) : Prop :=
  resp_hdrv req = Block slots /\ resp_hdrc req = Z.of_nat (length slots).

(** [req'] differs from [req] in the response headers at most. *)
Definition same_but_resp (req req' : req_t) : Prop :=
  code req' = code req /\ url req' = url req /\ ok req' = ok req /\
  text req' = text req /\ size req' = size req /\
  req_hdrv req' = req_hdrv req /\ req_hdrc req' = req_hdrc req.

(** The bytes occupied by the strings of an array, and the sum of their
    lengths as C strings. *)
Definition footprint (data : strv) : Z :=
  foldr (fun p acc => match p with
                      | Block s => Z.of_nat (length s)
                      | _ => 0
                      end + acc) 0 data.

Definition lens (data : strv) : Z :=
  foldr (fun p acc => match p with
                      | Block s => Z.of_nat (length (until_nul s))
                      | _ => 0
                      end + acc) 0 data.

(** ** Sample inputs *)

Module Samples.

(** Allocations that succeed, fresh memory being filled with [0xff]. *)
Definition fine : allocs := mk_allocs (Some (fun _ => xff)) true.
(** The growth [realloc] fails. *)
Definition no_growth : allocs := mk_allocs None true.

Definition bytes (s : string) : list byte := String.list_byte_of_string s.

(** Two body chunks, ["hello "] and ["world"], in engine buffers that
    go on with other bytes. *)
Definition hello : delivery := mk_delivery (bytes "hello world") 1 6 fine.
Definition world : delivery := mk_delivery (bytes "world!") 1 5 fine.

(** A chunk of three bytes with a zero byte in the middle, then ["c"]. *)
Definition a0b : delivery := mk_delivery [x61; x00; x62; x0a] 1 3 fine.
Definition lone_c : delivery := mk_delivery [x63; x0a] 1 1 fine.

(** Header lines as C strings. *)
Definition crlf (s : string) : block := bytes s ++ [x0d; x0a; x00].
Definition status_line : delivery := mk_delivery (crlf "HTTP/1.1 200 OK") 1 17 fine.
Definition date_line : delivery := mk_delivery (crlf "Date: today") 1 13 fine.
Definition blank_line : delivery := mk_delivery (crlf "") 1 2 fine.
(** A line with a zero byte in it. *)
Definition split_line : delivery :=
  mk_delivery [x41; x00; x42; x0d; x0a; x00] 1 5 fine.

Definition linux : environment :=
  mk_env (lit "Linux") (lit "6.1") true (fun _ => xff) (fun _ => true).

(** An exchange whose transfer fails with [CURLE_COULDNT_CONNECT]. *)
Definition refused : exchange := mk_exchange [] 7 0.

(** A context whose pointers were never initialised. *)
Definition garbage : req_t := mk_req 7 Wild Wild 9 Wild 3 Wild 4 5.

Definition example_url : ptr block := Block (lit "http://example.com").

End Samples.
Import Samples.

Ltac sample_delivered :=
  split; [simpl; lia | simpl; lia | vm_compute; reflexivity | vm_compute; lia].

Ltac sample_alloc_ok := split; [eexists; reflexivity | reflexivity].

Ltac sample_nul_free := vm_compute; repeat constructor; discriminate.

Ltac sample_c_line :=
  split; [sample_delivered | sample_nul_free | reflexivity].

Ltac sample_all tac :=
  repeat (apply Forall_cons_2; [tac|]); apply Forall_nil_2.

(** ** Vocabulary of the further properties *)

(** The body and the header deliveries of an exchange, each in order. *)
Fixpoint bodies (evs : list event) : list delivery :=
  match evs with
  | [] => []
  | Body d :: evs' => d :: bodies evs'
  | Header _ :: evs' => bodies evs'
  end.

Fixpoint headers (evs : list event) : list delivery :=
  match evs with
  | [] => []
  | Body _ :: evs' => headers evs'
  | Header d :: evs' => d :: headers evs'
  end.

(** An event as a well-behaved engine makes it, the allocations of the
    callback succeeding. *)
Definition sound_event (e : event) : Prop :=
  match e with
  | Body d => delivered d /\ alloc_ok (d_allocs d)
  | Header d => c_line d /\ alloc_ok (d_allocs d)
  end.

(** Both callbacks are installed on the request context. *)
Definition wired (opts : CURLoption -> optval) : Prop :=
  opts CURLOPT_WRITEFUNCTION = OptFun Resp_callback /\
  opts CURLOPT_WRITEDATA = OptCtx /\
  opts CURLOPT_HEADERFUNCTION = OptFun Header_callback /\
  opts CURLOPT_HEADERDATA = OptCtx.

(** [req_hdrv] is an array of exactly [req_hdrc] slots. *)
Definition req_inv (req : req_t) (slots : strv) : Prop :=
  req_hdrv req = Block slots /\ req_hdrc req = Z.of_nat (length slots).

(** No slot holds a pointer that [free] cannot take. *)
Definition freeable (slots : strv) : Prop := Forall (fun p => p <> Wild) slots.

(** [req'] differs from [req] in what was received at most. *)
Definition same_request (req req' : req_t) : Prop :=
  code req' = code req /\ url req' = url req /\ ok req' = ok req /\
  req_hdrv req' = req_hdrv req /\ req_hdrc req' = req_hdrc req.

(** The text the body buffer holds after the chunks [ds] were appended to
    [body]: of each chunk, the bytes before its first zero byte. *)
Definition appended (body : list byte) (ds : list delivery) : list byte :=
  body ++ concat (map (fun d => until_nul (chunk d)) ds).

(** The verdict [check_ok] gives on the status code [c]. *)
Definition verdict (c : Z) : Z := if decide (c < 400 /\ c <> 0) then 1 else 0.

(** A pointer to a C string. *)
Definition c_string (p : ptr block) : Prop := exists h, p = Block h /\ x00 ∈ h.

(** The copy made of a custom header: its text and a terminator. *)
Definition header_copy (p : ptr block) : block :=
  match p with
  | Block h => until_nul h ++ [x00]
  | _ => [x00]
  end.

(** The custom headers a call of [requests_pt] goes through. *)
Definition customs (custom_hdrv : ptr strv) (custom_hdrc : Z) : strv :=
  match custom_hdrv with
  | Block v => take (Z.to_nat custom_hdrc) v
  | _ => []
  end.

(** [custom_hdrv] holds [custom_hdrc] C strings at least, or is not read. *)
Definition customs_ok (custom_hdrv : ptr strv) (custom_hdrc : Z) : Prop :=
  match custom_hdrv with
  | Null => True
  | Wild => custom_hdrc <= 0
  | Block v =>
      (Z.to_nat custom_hdrc <= length v)%nat /\
      Forall c_string (take (Z.to_nat custom_hdrc) v)
  end.

(** [req'] differs from [req] in the recorded request headers at most. *)
Definition same_but_req (req req' : req_t) : Prop :=
  code req' = code req /\ url req' = url req /\ ok req' = ok req /\
  text req' = text req /\ size req' = size req /\
  resp_hdrv req' = resp_hdrv req /\ resp_hdrc req' = resp_hdrc req.

(** A context can be closed when its three pointers come from the
    allocator (the text possibly [NULL]), the two arrays have as many
    slots as their counts say, and every slot is [NULL] or a string. *)
Record closable (req : req_t) : Prop := mk_closable {
  cl_text : text req <> Wild;
  cl_resp : exists slots, resp_inv req slots /\ freeable slots;
  cl_req : exists slots, req_inv req slots /\ freeable slots
}.

(** A context between [requests_init] and [requests_close]: the body
    buffer holds a terminated text in [size + 1] bytes, and the context
    can be closed. *)
Record usable (req : req_t) : Prop := mk_usable {
  us_body : exists body, body_inv req body;
  us_size : 0 <= size req;
  us_resp : exists slots, resp_inv req slots /\ freeable slots;
  us_req : exists slots, req_inv req slots /\ freeable slots
}.

(** ** Sample sessions *)

Module Sessions.

(** A response of three header lines and two body chunks, status 200. *)
Definition answered : exchange :=
  mk_exchange [Header status_line; Header date_line; Header blank_line;
               Body hello; Body world] 0 200.

(** The same response with the status 404. *)
Definition not_found : exchange :=
  mk_exchange [Header status_line; Header blank_line; Body hello] 0 404.

Definition two_headers : ptr strv :=
  Block [Block (lit "Accept: */*"); Block (lit "X-Trace: 1")].

Definition all_fine : nat -> bool * bool := fun _ => (true, true).

(** A system on which no [curl_slist_append] succeeds. *)
Definition no_list : environment :=
  mk_env (lit "Linux") (lit "6.1") true (fun _ => xff) (fun _ => false).

(** A system on which the append of the first custom header fails. *)
Definition one_append_fails : environment :=
  mk_env (lit "Linux") (lit "6.1") true (fun _ => xff)
         (fun k => negb (Nat.eqb k 1)).

(** The copy of a chunk or line fails, the growth before it succeeds. *)
Definition no_copy : allocs := mk_allocs (Some (fun _ => xff)) false.

Definition date_line_no_copy : delivery :=
  mk_delivery (crlf "Date: today") 1 13 no_copy.

End Sessions.
Import Sessions.

Ltac sample_event :=
  split; [first [sample_delivered | sample_c_line] | sample_alloc_ok].

Ltac sample_c_string :=
  eexists; split;
  [reflexivity
  | unfold lit; rewrite elem_of_app; right; apply elem_of_cons; by left].

(** ** Theorems *)

(** *** Facts about C strings *)

Lemma is_nul_true b : is_nul b = true <-> b = x00.
Proof.
  unfold is_nul; split; [apply Byte.byte_dec_bl | apply Byte.byte_dec_lb].
Qed.

Lemma is_nul_false b : is_nul b = false <-> b <> x00.
Proof.
  rewrite <- is_nul_true. destruct (is_nul b); split; congruence.
Qed.

Lemma until_nul_free l : nul_free (until_nul l).
Proof.
  induction l as [|b l IH]; simpl; [constructor|].
  destruct (is_nul b) eqn:E; constructor; [by apply is_nul_false | done].
Qed.

Lemma until_nul_id l : nul_free l -> until_nul l = l.
Proof.
  induction 1 as [|b l Hb _ IH]; simpl; [done|].
  apply is_nul_false in Hb. by rewrite Hb, IH.
Qed.

Lemma until_nul_app_free l r : nul_free l -> until_nul (l ++ r) = l ++ until_nul r.
Proof.
  induction 1 as [|b l Hb _ IH]; simpl; [done|].
  apply is_nul_false in Hb. by rewrite Hb, IH.
Qed.

Lemma until_nul_app_nul l r : nul_free l -> until_nul (l ++ x00 :: r) = l.
Proof.
  intros H. rewrite until_nul_app_free by done. simpl. apply app_nil_r.
Qed.

Lemma until_nul_take n l : until_nul (take n l) = take n (until_nul l).
Proof.
  revert l; induction n as [|n IH]; intros [|b l]; simpl; try done.
  destruct (is_nul b); simpl; [done | by rewrite IH].
Qed.

Lemma until_nul_length l : (length (until_nul l) <= length l)%nat.
Proof.
  induction l as [|b l IH]; simpl; [lia|]. destruct (is_nul b); simpl; lia.
Qed.

Lemma until_nul_length_lt l : x00 ∈ l -> (length (until_nul l) < length l)%nat.
Proof.
  induction l as [|b l IH]; simpl; [by intros ?%elem_of_nil|].
  intros [<-|H]%elem_of_cons; [simpl; lia|].
  destruct (is_nul b); simpl; [lia | specialize (IH H); lia].
Qed.

Lemma take_until_nul l : take (length (until_nul l)) l = until_nul l.
Proof.
  induction l as [|b l IH]; simpl; [done|].
  destruct (is_nul b); simpl; [done | by rewrite IH].
Qed.

Lemma until_nul_split l :
  x00 ∈ l -> l = until_nul l ++ x00 :: drop (S (length (until_nul l))) l.
Proof.
  induction l as [|b l IH]; simpl; [by intros ?%elem_of_nil|].
  destruct (is_nul b) eqn:E.
  - apply is_nul_true in E as ->. by rewrite drop_0.
  - intros [<-|H]%elem_of_cons; [done|]. simpl. f_equal. by apply IH.
Qed.

Lemma nul_free_not_elem l : nul_free l <-> x00 ∉ l.
Proof.
  unfold nul_free. rewrite Forall_forall. split.
  - intros H Hin. by apply (H _ Hin).
  - intros H b Hb ->. done.
Qed.

Lemma strlen_Done s : x00 ∈ s -> CString.strlen s = Done (length (until_nul s)).
Proof.
  induction s as [|b s IH]; simpl; [by intros ?%elem_of_nil|].
  destruct (is_nul b) eqn:E; [done|].
  intros [<-|H]%elem_of_cons; [done|]. by rewrite (IH H).
Qed.

Lemma strlen_Undef s : nul_free s -> CString.strlen s = Undef.
Proof.
  induction 1 as [|b l Hb _ IH]; simpl; [done|].
  apply is_nul_false in Hb. by rewrite Hb, IH.
Qed.

Lemma strlen_inv s k : CString.strlen s = Done k -> x00 ∈ s /\ k = length (until_nul s).
Proof.
  intros H. destruct (decide (x00 ∈ s)) as [Hin|Hn].
  - split; [done|]. rewrite (strlen_Done _ Hin) in H. congruence.
  - apply nul_free_not_elem in Hn. rewrite (strlen_Undef _ Hn) in H. done.
Qed.

Lemma strnlen_Done s n :
  (n <= length s)%nat \/ x00 ∈ s ->
  CString.strnlen s n = Done (length (until_nul (take n s))).
Proof.
  revert s; induction n as [|n IH]; intros [|b s] H; simpl; try done.
  - destruct H as [H|H]; [simpl in H; lia | by apply elem_of_nil in H].
  - destruct (is_nul b) eqn:E; [done|]. rewrite IH; [done|].
    destruct H as [H|H]; [left; simpl in H; lia|].
    apply elem_of_cons in H as [<-|H]; [done | by right].
Qed.

Lemma text_of_Done s : x00 ∈ s -> CString.text_of s = Done (until_nul s).
Proof.
  intros H. unfold CString.text_of. rewrite (strlen_Done _ H). simpl.
  by rewrite take_until_nul.
Qed.

Lemma strncat_Done dest src n :
  x00 ∈ dest ->
  (Z.to_nat n <= length src)%nat \/ x00 ∈ src ->
  let u := until_nul dest in
  let p := until_nul (take (Z.to_nat n) src) in
  (length u + length p + 1 <= length dest)%nat ->
  CString.strncat dest src n =
    Done (u ++ p ++ [x00] ++ drop (length u + length p + 1) dest).
Proof.
  intros Hd Hs u p Hfit. unfold CString.strncat.
  rewrite (strlen_Done _ Hd), (strnlen_Done _ _ Hs). simpl.
  fold u p. rewrite decide_True by done.
  assert (take (length u) dest = u) as -> by apply take_until_nul.
  assert (take (length p) src = p) as ->; [|done].
  unfold p at 2. rewrite <- (take_until_nul (take _ src)).
  rewrite take_take. f_equal. fold p.
  pose proof (until_nul_length (take (Z.to_nat n) src)) as Hl.
  fold p in Hl. rewrite length_take in Hl. lia.
Qed.
Lemma take_until_nul_take n l :
  take (length (until_nul (take n l))) l = until_nul (take n l).
Proof.
  rewrite <- (take_until_nul (take n l)) at 2. rewrite take_take. f_equal.
  pose proof (until_nul_length (take n l)) as Hl.
  rewrite length_take in Hl. lia.
Qed.

Lemma until_nul_app_elem l r : x00 ∈ l -> until_nul (l ++ r) = until_nul l.
Proof.
  intros H. rewrite (until_nul_split l H) at 1. rewrite <- app_assoc. simpl.
  apply until_nul_app_nul, until_nul_free.
Qed.

Lemma size_t_small z : 0 <= z <= C.SIZE_MAX -> C.size_t z = z.
Proof. intros H. unfold C.size_t. apply Z.mod_small. unfold C.SIZE_MAX in H. lia. Qed.

(** *** The body accumulator *)

Lemma resp_callback_step content sz nm req a body :
  body_inv req body ->
  0 <= sz -> 0 <= nm -> 0 <= size req ->
  size req + sz * nm + 1 <= C.SIZE_MAX ->
  (Z.to_nat (sz * nm) < length content)%nat ->
  alloc_ok a ->
  exists req',
    resp_callback content sz nm req a = Done (sz * nm, req') /\
    body_inv req' (body ++ until_nul (take (Z.to_nat (sz * nm)) content)) /\
    size req' = size req + sz * nm /\
    same_but_body req req'.
Proof.
  intros (buf & Ht & Hlen & Hin & Hbody) Hsz Hnm Hsize Hfit Hrd [[j Hj] Hsd].
  assert (Hrs : 0 <= sz * nm) by lia.
  set (rs := sz * nm) in *.
  unfold resp_callback. fold rs. rewrite Ht, Hj, Hsd.
  rewrite !size_t_small by lia. simpl.
  rewrite take_ge by lia.
  set (buf1 := buf ++ _).
  assert (Hlen1 : Z.of_nat (length buf1) = size req + rs + 1).
  { unfold buf1. rewrite length_app, length_map, length_seq. lia. }
  unfold CString.strndup.
  rewrite strnlen_Done by (left; lia). simpl.
  rewrite take_until_nul_take.
  set (w := until_nul (take (Z.to_nat (rs + 1)) content)).
  assert (Hp : until_nul (take (Z.to_nat rs) (w ++ [x00])) =
               until_nul (take (Z.to_nat rs) content)).
  { rewrite until_nul_take, until_nul_app_nul by apply until_nul_free.
    unfold w. rewrite until_nul_take, take_take, <- until_nul_take.
    f_equal. f_equal. lia. }
  assert (Hu : until_nul buf1 = body).
  { unfold buf1. by rewrite until_nul_app_elem. }
  pose proof (until_nul_length_lt buf Hin) as Hbl. rewrite Hbody in Hbl.
  pose proof (until_nul_length (take (Z.to_nat rs) content)) as Hpl.
  rewrite length_take in Hpl.
  rewrite strncat_Done; rewrite ?Hp, ?Hu.
  - simpl. rewrite size_t_small by lia.
    eexists; split; [reflexivity|]. split; [|split; [done|by repeat split]].
    eexists; split; [reflexivity|]. simpl. repeat split.
    + rewrite !length_app. simpl. rewrite length_drop. lia.
    + rewrite !elem_of_app. right; right. apply elem_of_cons. by left.
    + rewrite app_assoc. apply until_nul_app_nul.
      apply Forall_app. split; [rewrite <- Hbody|]; apply until_nul_free.
  - unfold buf1. rewrite elem_of_app. by left.
  - right. rewrite elem_of_app. right. apply elem_of_cons. by left.
  - lia.
Qed.

Lemma total_bytes_nonneg ds : Forall delivered ds -> 0 <= total_bytes ds.
Proof.
  induction 1 as [|d ds [Hs Hn _ _] _ IH]; simpl; [lia|].
  unfold byte_count. nia.
Qed.

Lemma same_but_body_trans r1 r2 r3 :
  same_but_body r1 r2 -> same_but_body r2 r3 -> same_but_body r1 r3.
Proof. unfold same_but_body. intuition congruence. Qed.

Lemma same_but_body_refl r : same_but_body r r.
Proof. by repeat split. Qed.

(** Any number of deliveries: the buffer holds, as a C string, what each
    chunk shows before its first zero byte, and [size] counts every byte. *)
Lemma resp_callbacks_run ds : forall req body,
  body_inv req body ->
  0 <= size req ->
  Forall delivered ds ->
  Forall (fun d => alloc_ok (d_allocs d)) ds ->
  size req + total_bytes ds + 1 <= C.SIZE_MAX ->
  exists req',
    resp_callbacks ds req = Done req' /\
    body_inv req' (body ++ concat (map (fun d => until_nul (chunk d)) ds)) /\
    size req' = size req + total_bytes ds /\
    same_but_body req req'.
Proof.
  induction ds as [|d ds IH]; intros req body Hinv Hsize Hdl Hal Hfit; simpl in *.
  - exists req. rewrite app_nil_r, Z.add_0_r.
    eauto using same_but_body_refl.
  - apply Forall_cons in Hdl as [Hd Hdl]. apply Forall_cons in Hal as [Ha Hal].
    pose proof (total_bytes_nonneg ds Hdl) as Hnn.
    destruct Hd as [Hs Hn _ Hr]. unfold byte_count in *.
    destruct (resp_callback_step (d_content d) (d_size d) (d_nmemb d) req
                (d_allocs d) body) as (req1 & -> & Hinv1 & Hsz1 & Hsame1);
      try done; try lia.
    simpl.
    destruct (IH req1 _ Hinv1) as (req' & -> & Hinv' & Hsz' & Hsame');
      try done; try nia.
    exists req'. split; [done|]. rewrite <- app_assoc in Hinv'.
    split; [done|]. split; [lia|]. eauto using same_but_body_trans.
Qed.

Lemma requests_init_ok st handle h f req0 :
  requests_init st (mk_init_allocs true true true) handle = Done (h, (f, req0)) ->
  h = handle /\ f = 0 /\
  req0 = fresh_req.
Proof.
  unfold requests_init. destruct (st.1 =? 0).
  - destruct (requests_close st) as [|st']; simpl; [done|].
    intros [= <- <- <-]. done.
  - simpl. intros [= <- <- <-]. done.
Qed.

Lemma body_inv_init : body_inv fresh_req [].
Proof.
  exists [x00]. simpl. repeat split. apply elem_of_cons. by left.
Qed.

Lemma chunk_length d : delivered d -> Z.of_nat (length (chunk d)) = byte_count d.
Proof.
  intros [Hs Hn _ Hr]. unfold chunk. rewrite length_take.
  assert (0 <= byte_count d) by (unfold byte_count; nia). lia.
Qed.

Lemma concat_chunks_length ds :
  Forall delivered ds -> Z.of_nat (length (concat (map chunk ds))) = total_bytes ds.
Proof.
  induction 1 as [|d ds Hd _ IH]; simpl; [done|].
  rewrite length_app, <- (chunk_length d Hd). lia.
Qed.

(** C1 (as amended).  For every sequence of body chunks delivered to
    [resp_callback] after a successful [requests_init] (none, one or many,
    of any sizes), where no chunk holds a zero byte, the engine's buffer
    is readable one byte past each chunk, the allocations succeed and the
    total fits a [size_t]: every call returns, and the body buffer holds
    exactly the chunks one after the other in delivery order, followed by
    one terminator. *)
Theorem resp_callbacks_concat st handle h f req0 ds :
  requests_init st (mk_init_allocs true true true) handle = Done (h, (f, req0)) ->
  Forall delivered ds ->
  Forall (fun d => alloc_ok (d_allocs d)) ds ->
  Forall (fun d => nul_free (chunk d)) ds ->
  total_bytes ds < C.SIZE_MAX ->
  exists req',
    resp_callbacks ds req0 = Done req' /\
    text req' = Block (concat (map chunk ds) ++ [x00]).
Proof.
  intros (_ & _ & ->)%requests_init_ok Hdl Hal Hnf Hfit.
  destruct (resp_callbacks_run ds _ [] body_inv_init) as
    (req' & Hrun & (buf & Ht & Hlen & Hin & Hbody) & Hsz & _);
    simpl; try done; try lia.
  exists req'. split; [done|]. rewrite Ht. f_equal.
  assert (Hcc : concat (map (fun d => until_nul (chunk d)) ds) = concat (map chunk ds)).
  { f_equal. clear -Hnf. induction Hnf; simpl; [done|].
    f_equal; [by apply until_nul_id | done]. }
  rewrite Hcc in Hbody. simpl in Hsz, Hbody.
  pose proof (until_nul_split buf Hin) as Hsplit. rewrite Hbody in Hsplit.
  rewrite Hsplit at 1. f_equal. f_equal.
  apply drop_ge. pose proof (concat_chunks_length ds Hdl). lia.
Qed.

(** C1, the claim as stated fails on a chunk with a zero byte in it: of
    the chunk [a, 0, b] only [a] is appended, and the next chunk [c] goes
    right after it, whereas [size] counts four bytes. *)
Lemma resp_callbacks_embedded_zero :
  exists req' buf,
    resp_callbacks [a0b; lone_c] fresh_req = Done req' /\
    text req' = Block buf /\ size req' = 4 /\
    buf <> concat (map chunk [a0b; lone_c]) ++ [x00] /\
    take (Z.to_nat (size req')) buf <> concat (map chunk [a0b; lone_c]) /\
    until_nul buf <> concat (map chunk [a0b; lone_c]).
Proof.
  eexists _, _. split; [vm_compute; reflexivity|].
  split; [reflexivity|]. split; [reflexivity|].
  repeat split; vm_compute; discriminate.
Qed.

(** C1, witness: ["hello "] then ["world"]. *)
Lemma resp_callbacks_concat_witness :
  exists req',
    resp_callbacks [hello; world] fresh_req = Done req' /\
    text req' = Block (concat (map chunk [hello; world]) ++ [x00]).
Proof.
  apply (resp_callbacks_concat (1, garbage) Null Null 0 fresh_req [hello; world]).
  - reflexivity.
  - sample_all sample_delivered.
  - sample_all sample_alloc_ok.
  - sample_all sample_nul_free.
  - vm_compute. reflexivity.
Defined.

(** Why the engine's buffer has to go on after the chunk: [strndup] is
    asked for [real_size + 1] bytes, and a chunk without zero byte at the
    very end of its buffer makes it read one byte too far. *)
Example resp_callback_reads_past_chunk :
  resp_callback (bytes "abc") 1 3 fresh_req fine = Undef.
Proof. reflexivity. Qed.

(** C8.  After any sequence of body chunks delivered to [resp_callback]
    from a successful [requests_init] on, whatever the chunks hold, the
    field [size] is the sum of the byte counts [size * nmemb] of all the
    chunks delivered. *)
Theorem size_is_total_bytes st handle h f req0 ds :
  requests_init st (mk_init_allocs true true true) handle = Done (h, (f, req0)) ->
  Forall delivered ds ->
  Forall (fun d => alloc_ok (d_allocs d)) ds ->
  total_bytes ds < C.SIZE_MAX ->
  exists req',
    resp_callbacks ds req0 = Done req' /\
    size req' = total_bytes ds.
Proof.
  intros (_ & _ & ->)%requests_init_ok Hdl Hal Hfit.
  destruct (resp_callbacks_run ds _ [] body_inv_init) as
    (req' & Hrun & _ & Hsz & _); simpl; try done; try lia.
  exists req'. done.
Qed.

(** C8, witness: the byte count does not depend on what the chunks hold. *)
Lemma size_is_total_bytes_witness :
  exists req',
    resp_callbacks [a0b; lone_c; hello] fresh_req = Done req' /\
    size req' = total_bytes [a0b; lone_c; hello].
Proof.
  apply (size_is_total_bytes (1, garbage) Null Null 0 fresh_req [a0b; lone_c; hello]).
  - reflexivity.
  - sample_all sample_delivered.
  - sample_all sample_alloc_ok.
  - vm_compute. reflexivity.
Defined.

(** *** The header collector *)

Lemma byte_eqb_decide b c : Byte.eqb b c = bool_decide (b = c).
Proof.
  destruct (decide (b = c)) as [->|Hne].
  - rewrite bool_decide_eq_true_2 by done. by apply Byte.byte_dec_lb.
  - rewrite bool_decide_eq_false_2 by done.
    destruct (Byte.eqb b c) eqn:E; [|done]. by apply Byte.byte_dec_bl in E.
Qed.

Lemma strcmp_eq_line l : forall k r,
  nul_free l -> nul_free k ->
  CString.strcmp_eq (l ++ x00 :: r) k = Done (bool_decide (l = k)).
Proof.
  induction l as [|b l IH]; intros [|c k] r Hl Hk; simpl.
  - done.
  - apply Forall_cons in Hk as [Hc _].
    rewrite byte_eqb_decide, bool_decide_eq_false_2 by done. done.
  - apply Forall_cons in Hl as [Hb _]. apply is_nul_false in Hb. by rewrite Hb.
  - apply Forall_cons in Hl as [Hb Hl]. apply Forall_cons in Hk as [Hc Hk].
    rewrite byte_eqb_decide. destruct (decide (b = c)) as [->|Hne].
    + rewrite bool_decide_eq_true_2 by done. rewrite IH by done.
      f_equal. apply bool_decide_ext. split; [by intros -> | by intros [= ->]].
    + rewrite bool_decide_eq_false_2 by done. f_equal. symmetry.
      apply bool_decide_eq_false_2. by intros [= -> _].
Qed.

Lemma c_line_content d :
  c_line d -> d_content d =
              chunk d ++ x00 :: drop (S (Z.to_nat (byte_count d))) (d_content d).
Proof.
  intros [_ _ Ht]. unfold chunk.
  rewrite <- (take_drop_middle _ _ _ Ht) at 1. done.
Qed.

Lemma header_callback_step d req slots :
  c_line d ->
  alloc_ok (d_allocs d) ->
  resp_inv req slots ->
  Z.of_nat (length slots) < C.INT_MAX ->
  exists req',
    header_callback (d_content d) (d_size d) (d_nmemb d) req (d_allocs d) =
      Done (byte_count d, req') /\
    resp_inv req' (slots ++ stored_lines [d]) /\
    same_but_resp req req'.
Proof.
  intros Hline [[j Hj] Hsd] [Hv Hc] Hmax.
  pose proof (c_line_content d Hline) as Hcontent.
  destruct Hline as [[Hs Hn Hfit Hr] Hfree Hterm].
  assert (Hbc : 0 <= byte_count d) by (unfold byte_count; nia).
  assert (Hlen : length (chunk d) = Z.to_nat (byte_count d)).
  { unfold chunk. rewrite length_take. lia. }
  assert (Hcmp : CString.strcmp_eq (d_content d) CRLF =
                 Done (bool_decide (chunk d = CRLF))).
  { rewrite Hcontent at 1. apply strcmp_eq_line; [done | by repeat constructor]. }
  assert (Hdup : until_nul (take (Z.to_nat (byte_count d + 1)) (d_content d)) =
                 chunk d).
  { rewrite Hcontent at 1. rewrite until_nul_take, until_nul_app_nul by done.
    apply take_ge. lia. }
  unfold header_callback. fold (byte_count d). fold CRLF. rewrite Hcmp. simpl.
  unfold stored_lines.
  destruct (decide (chunk d = CRLF)) as [Hblank|Hnb].
  - rewrite bool_decide_eq_true_2 by done.
    rewrite size_t_small by (unfold C.SIZE_MAX in *; lia).
    exists req. split; [done|]. rewrite filter_cons_False by tauto.
    simpl. rewrite app_nil_r. by repeat split.
  - rewrite bool_decide_eq_false_2 by done.
    rewrite filter_cons_True by done. simpl.
    rewrite Hv, Hc, Hj, Hsd. simpl.
    unfold C.INT_MAX, C.PTR_SIZE in *.
    unfold C.SIZE_MAX, C.SIZE_MOD in Hfit.
    rewrite (size_t_small (Z.of_nat (length slots) * 8))
      by (unfold C.SIZE_MAX, C.SIZE_MOD; lia).
    rewrite (size_t_small (Z.of_nat (length slots) * 8 + 8))
      by (unfold C.SIZE_MAX, C.SIZE_MOD; lia).
    fold (byte_count d).
    rewrite (size_t_small (byte_count d))
      by (unfold C.SIZE_MAX, C.SIZE_MOD; lia).
    rewrite (size_t_small (byte_count d + 1))
      by (unfold C.SIZE_MAX, C.SIZE_MOD; lia).
    replace ((Z.of_nat (length slots) * 8 + 8) / 8) with (Z.of_nat (length slots) + 1)
      by (apply Z.div_unique with 0; lia).
    rewrite take_ge by lia.
    replace (Z.to_nat (Z.of_nat (length slots) + 1) - length slots)%nat with 1%nat by lia.
    simpl. rewrite decide_False by lia.
    unfold CString.strndup. rewrite strnlen_Done by (left; lia). simpl.
    rewrite take_until_nul_take, Hdup.
    rewrite length_app. simpl.
    rewrite decide_True by lia.
    eexists. split; [reflexivity|]. split; [|by repeat split].
    split; simpl.
    + f_equal.
      replace (Z.to_nat (Z.of_nat (length slots) + 1 - 1)) with (length slots + 0)%nat by lia.
      rewrite insert_app_r. done.
    + rewrite length_app. simpl. lia.
Qed.

Lemma same_but_resp_trans r1 r2 r3 :
  same_but_resp r1 r2 -> same_but_resp r2 r3 -> same_but_resp r1 r3.
Proof. unfold same_but_resp. intuition congruence. Qed.

Lemma stored_lines_cons d ds :
  stored_lines (d :: ds) = stored_lines [d] ++ stored_lines ds.
Proof.
  unfold stored_lines.
  destruct (decide (chunk d <> CRLF)).
  - by rewrite !filter_cons_True by done.
  - by rewrite !filter_cons_False by done.
Qed.

Lemma stored_lines_length ds : (length (stored_lines ds) <= length ds)%nat.
Proof.
  unfold stored_lines. rewrite length_map. apply length_filter.
Qed.

Lemma header_callbacks_run ds : forall req slots,
  resp_inv req slots ->
  Forall c_line ds ->
  Forall (fun d => alloc_ok (d_allocs d)) ds ->
  Z.of_nat (length slots) + Z.of_nat (length ds) <= C.INT_MAX ->
  exists req',
    header_callbacks ds req = Done req' /\
    resp_inv req' (slots ++ stored_lines ds) /\
    same_but_resp req req'.
Proof.
  induction ds as [|d ds IH]; intros req slots Hinv Hcl Hal Hmax; simpl in *.
  - exists req. change (stored_lines []) with (@nil (ptr block)).
    rewrite app_nil_r. split; [done|]. split; [done|]. by repeat split.
  - apply Forall_cons in Hcl as [Hd Hcl]. apply Forall_cons in Hal as [Ha Hal].
    destruct (header_callback_step d req slots) as (req1 & -> & Hinv1 & Hsame1);
      try done; try lia.
    simpl.
    pose proof (stored_lines_length [d]) as Hl1. simpl in Hl1.
    destruct (IH req1 _ Hinv1) as (req' & -> & Hinv' & Hsame'); try done.
    { rewrite length_app. lia. }
    exists req'. split; [done|]. rewrite stored_lines_cons, app_assoc.
    eauto using same_but_resp_trans.
Qed.

Lemma resp_inv_init : resp_inv fresh_req [].
Proof. by split. Qed.

(** C2 (as amended).  For every sequence of header lines delivered to
    [header_callback] after a successful [requests_init], each line being
    a C string (no zero byte in it, one right after it) and the allocations
    succeeding: the blank line CR LF is never stored, and the lines other
    than it are stored in arrival order, one entry each, every entry being
    the bytes of its line followed by a terminator. *)
Theorem header_callbacks_collect st handle h f req0 ds :
  requests_init st (mk_init_allocs true true true) handle = Done (h, (f, req0)) ->
  Forall c_line ds ->
  Forall (fun d => alloc_ok (d_allocs d)) ds ->
  Z.of_nat (length ds) <= C.INT_MAX ->
  exists req',
    header_callbacks ds req0 = Done req' /\
    resp_hdrv req' = Block (stored_lines ds) /\
    resp_hdrc req' = Z.of_nat (length (filter (fun d => chunk d <> CRLF) ds)) /\
    Block (CRLF ++ [x00]) ∉ stored_lines ds.
Proof.
  intros (_ & _ & ->)%requests_init_ok Hcl Hal Hmax.
  destruct (header_callbacks_run ds fresh_req [] resp_inv_init)
    as (req' & Hrun & [Hv Hc] & _); simpl; try done.
  exists req'. simpl in *. split; [done|]. split; [done|].
  split.
  - rewrite Hc. unfold stored_lines. by rewrite length_map.
  - unfold stored_lines. intros Hin. apply list_elem_of_fmap in Hin as (d & Heq & Hd).
    apply list_elem_of_filter in Hd as [Hne _]. apply Hne.
    injection Heq as Heq. change (CRLF ++ [x00] = chunk d ++ [x00]) in Heq.
    by apply app_inv_tail in Heq.
Qed.

(** C2, the claim as stated fails on a line with a zero byte in it: of
    the five bytes [A, 0, B, CR, LF] only [A] is stored. *)
Lemma header_callbacks_embedded_zero :
  exists req',
    header_callbacks [split_line] fresh_req = Done req' /\
    resp_hdrv req' = Block [Block [x41; x00]] /\
    resp_hdrv req' <> Block (stored_lines [split_line]).
Proof.
  eexists. split; [vm_compute; reflexivity|]. split; [reflexivity|].
  vm_compute. discriminate.
Qed.

(** C2, witness: a status line, a header and the blank line. *)
Lemma header_callbacks_collect_witness :
  exists req',
    header_callbacks [status_line; date_line; blank_line] fresh_req = Done req' /\
    resp_hdrv req' = Block (stored_lines [status_line; date_line; blank_line]) /\
    resp_hdrc req' = 2.
Proof.
  destruct (header_callbacks_collect (1, garbage) Null Null 0 fresh_req
              [status_line; date_line; blank_line])
    as (req' & Hrun & Hv & Hc & _).
  - reflexivity.
  - sample_all sample_c_line.
  - sample_all sample_alloc_ok.
  - vm_compute. discriminate.
  - exists req'. split; [exact Hrun|]. split; [exact Hv|]. exact Hc.
Defined.

(** Why a zero byte has to follow the line: without it the blank line is
    not recognised, and is stored with the byte that follows it. *)
Example header_callback_unterminated_blank_line :
  exists req',
    header_callback [x0d; x0a; x41; x00] 1 2 fresh_req fine = Done (2, req') /\
    resp_hdrv req' = Block [Block [x0d; x0a; x41; x00]].
Proof. eexists. split; reflexivity. Qed.

(** *** What the callbacks return *)

(** C10.  When [resp_callback] or [header_callback] returns and no
    allocation failed, the value returned is [size * nmemb]; this holds
    for the blank line too, which [header_callback] leaves unstored. *)
Theorem callbacks_return_byte_count content sz nm req a ret req' :
  0 <= sz -> 0 <= nm -> sz * nm <= C.SIZE_MAX -> alloc_ok a ->
  (resp_callback content sz nm req a = Done (ret, req') -> ret = sz * nm) /\
  (header_callback content sz nm req a = Done (ret, req') ->
     ret = sz * nm /\
     (CString.strcmp_eq content CRLF = Done true -> req' = req)).
Proof.
  intros Hs Hn Hfit [[j Hj] Hsd].
  assert (Hrs : C.size_t (sz * nm) = sz * nm) by (apply size_t_small; nia).
  split.
  - unfold resp_callback. rewrite Hrs, Hj, Hsd.
    destruct (text req) as [| |buf]; simpl; [|done|].
    + unfold CString.strndup. destruct (CString.strnlen _ _); simpl; [done|].
      destruct (CString.strncat _ _ _); simpl; [done|]. by intros [= <- _].
    + unfold CString.strndup. destruct (CString.strnlen _ _); simpl; [done|].
      destruct (CString.strncat _ _ _); simpl; [done|]. by intros [= <- _].
  - unfold header_callback. fold CRLF. rewrite Hrs, Hj, Hsd.
    destruct (CString.strcmp_eq content CRLF) as [|[|]]; simpl; [done| |].
    + by intros [= <- <-].
    + intros H. split; [|done]. revert H.
      destruct (resp_hdrv req) as [| |slots]; simpl; [|done|].
      all: destruct (decide _); [done|]; unfold CString.strndup;
        destruct (CString.strnlen _ _); simpl; [done|];
        destruct (decide _); [|done]; by intros [= <- _].
Qed.

(** C10, witness: a body chunk and the blank header line. *)
Lemma callbacks_return_byte_count_witness :
  resp_callback (bytes "hello world") 1 6 fresh_req fine
    = Done (6, set_text (Block (bytes "hello " ++ [x00])) (set_size 6 fresh_req)) /\
  header_callback (crlf "") 1 2 fresh_req fine = Done (2, fresh_req) /\
  6 = 1 * 6 /\ 2 = 1 * 2.
Proof.
  split; [vm_compute; reflexivity|]. split; [vm_compute; reflexivity|].
  split.
  - destruct (callbacks_return_byte_count (bytes "hello world") 1 6 fresh_req
                fine 6
                (set_text (Block (bytes "hello " ++ [x00])) (set_size 6 fresh_req)))
      as [Hresp _]; [lia | lia | vm_compute; discriminate | sample_alloc_ok |].
    apply Hresp. vm_compute. reflexivity.
  - destruct (callbacks_return_byte_count (crlf "") 1 2 fresh_req fine 2 fresh_req)
      as [_ Hhdr]; [lia | lia | vm_compute; discriminate | sample_alloc_ok |].
    apply Hhdr. vm_compute. reflexivity.
Defined.

(** *** The pipelines *)

Lemma text_of_inv s t : CString.text_of s = Done t -> x00 ∈ s /\ t = until_nul s.
Proof.
  unfold CString.text_of. destruct (CString.strlen s) as [|k] eqn:E; simpl; [done|].
  apply strlen_inv in E as [Hin ->]. rewrite take_until_nul. by intros [= <-].
Qed.

Lemma resp_callback_verdict content sz nm req a r :
  resp_callback content sz nm req a = Done r ->
  code r.2 = code req /\ ok r.2 = ok req.
Proof.
  unfold resp_callback.
  destruct (realloc _ _ _) as [|[| |buf]]; simpl; try done;
    try (by intros [= <-]).
  destruct (CString.strndup _ _ _) as [|[| |rt]]; simpl; try done;
    try (by intros [= <-]).
  destruct (CString.strncat _ _ _); simpl; [done|]. by intros [= <-].
Qed.

Lemma header_callback_verdict content sz nm req a r :
  header_callback content sz nm req a = Done r ->
  code r.2 = code req /\ ok r.2 = ok req.
Proof.
  unfold header_callback.
  destruct (CString.strcmp_eq _ _) as [|[|]]; simpl; try done;
    try (by intros [= <-]).
  destruct (realloc_strv _ _ _) as [|[| |slots]]; simpl; try done;
    try (by intros [= <-]).
  destruct (decide _); [done|].
  destruct (CString.strndup _ _ _) as [|line]; simpl; [done|].
  destruct (decide _); [|done]. by intros [= <-].
Qed.

Lemma call_sink_verdict f data d req r :
  call_sink f data d req = Done r -> code r.2 = code req /\ ok r.2 = ok req.
Proof.
  unfold call_sink.
  destruct f as [| | |[|]| |]; destruct data;
    eauto using resp_callback_verdict, header_callback_verdict;
    by intros [= <-].
Qed.

Lemma deliver_verdict opts evs : forall req req',
  deliver opts evs req = Done req' -> code req' = code req /\ ok req' = ok req.
Proof.
  induction evs as [|[d|d] evs IH]; intros req req'; simpl.
  - by intros [= <-].
  - destruct (call_sink _ _ d req) as [|r] eqn:E; simpl; [done|].
    apply call_sink_verdict in E as [Hc Ho]. intros H.
    apply IH in H as [Hc' Ho']. split; congruence.
  - destruct (call_sink _ _ d req) as [|r] eqn:E; simpl; [done|].
    apply call_sink_verdict in E as [Hc Ho]. intros H.
    apply IH in H as [Hc' Ho']. split; congruence.
Qed.

(** The shared tail: the exchange is logged with the options in force, and
    a transport failure is returned as it is, the verdict left alone. *)
Lemma perform_and_finish_spec curl req ua x r :
  perform_and_finish curl req ua x = Done r ->
  performed r.1.2 = performed curl ++ [options curl] /\
  r.1.1 = x_rc x /\
  (x_rc x <> C.CURLE_OK -> code r.2 = code req /\ ok r.2 = ok req).
Proof.
  unfold perform_and_finish, curl_easy_perform.
  destruct (live curl); simpl; [|done].
  destruct (deliver _ _ req) as [|req1] eqn:E; simpl; [done|].
  apply deliver_verdict in E.
  destruct (decide (x_rc x <> C.CURLE_OK)).
  - by intros [= <-].
  - destruct (free ua); simpl; [done|]. by intros [= <-].
Qed.


Lemma setopt_other h o v o' :
  o' <> o -> options (curl_easy_setopt h o v) o' = options h o'.
Proof. intros H. simpl. by rewrite decide_False. Qed.

Lemma setopt_same h o v : options (curl_easy_setopt h o v) o = v.
Proof. simpl. by rewrite decide_True. Qed.



(** *** Allocation failures and [requests_close] *)

(** C9.  The code checks every growth allocation and reports its failure,
    but the pointer it loses is the one [requests_close] goes through:
    after a header line was stored and the next growth fails, or after a
    custom header was recorded and the next growth fails, the array is
    [NULL] while its count is 1, and [requests_close] dereferences it;
    after a failed first [requests_init] the two header arrays were never
    initialised, and [requests_close] frees them. *)
Theorem allocation_failure_breaks_close :
  (exists req1 req2,
     header_callback (d_content status_line) 1 17 fresh_req fine
       = Done (17, req1) /\
     header_callback (d_content date_line) 1 13 req1 no_growth
       = Done (C.SIZE_MAX, req2) /\
     resp_hdrv req2 = Null /\ resp_hdrc req2 = 1 /\
     requests_close (0, req2) = Undef) /\
  (exists r,
     requests_pt curl_easy_init_handle fresh_req example_url Null
       (Block [Block (lit "A: 1"); Block (lit "B: 2")]) 2 0 linux
       (fun i => (bool_decide (i = O), true)) refused = Done r /\
     r.1.1 = C.CURLE_OUT_OF_MEMORY /\
     req_hdrv r.2 = Null /\ req_hdrc r.2 = 1 /\
     requests_close (0, r.2) = Undef) /\
  (exists req',
     requests_init (1, garbage) (mk_init_allocs false true true)
                   (Block curl_easy_init_handle) = Done (Null, (1, req')) /\
     text req' = Null /\ resp_hdrv req' = Wild /\
     requests_close (1, req') = Undef).
Proof.
  split; [|split].
  - eexists _, _. split; [vm_compute; reflexivity|].
    split; [vm_compute; reflexivity|]. by repeat split.
  - eexists. split; [vm_compute; reflexivity|]. by repeat split.
  - eexists. split; [vm_compute; reflexivity|]. by repeat split.
Qed.

(** *** The encoder *)

Lemma footprint_nonneg data : 0 <= footprint data.
Proof. induction data as [|[| |s] data IH]; simpl; lia. Qed.

Lemma footprint_app a b : footprint (a ++ b) = footprint a + footprint b.
Proof. induction a as [|[| |s] a IH]; simpl; lia. Qed.

Lemma lens_le_footprint data : 0 <= lens data <= footprint data.
Proof.
  induction data as [|[| |s] data IH]; simpl; try lia.
  pose proof (until_nul_length s). lia.
Qed.

Lemma footprint_drop i data : footprint (drop i data) <= footprint data.
Proof.
  rewrite <- (take_drop i data) at 2. rewrite footprint_app.
  pose proof (footprint_nonneg (take i data)). lia.
Qed.

Lemma footprint_take i data : footprint (take i data) <= footprint data.
Proof.
  rewrite <- (take_drop i data) at 2. rewrite footprint_app.
  pose proof (footprint_nonneg (drop i data)). lia.
Qed.

Lemma sum_lengths_spec count : forall i data t T,
  sum_lengths count i data t = Done T ->
  0 <= t -> t + footprint (drop i data) <= C.SIZE_MAX ->
  T = t + lens (take count (drop i data)) /\
  (count <= length (drop i data))%nat.
Proof.
  induction count as [|count IH]; intros i data t T; simpl.
  - intros [= <-] _ _. simpl. split; lia.
  - destruct (data !! i) as [[| |s]|] eqn:Hi; try done.
    destruct (CString.strlen s) as [|len] eqn:Hlen; simpl; [done|].
    apply strlen_inv in Hlen as [Hin ->].
    rewrite (drop_S _ _ _ Hi). simpl. intros H Ht Hfit.
    pose proof (until_nul_length s) as Hl.
    pose proof (footprint_nonneg (drop (S i) data)) as Hnn.
    rewrite size_t_small in H by lia.
    apply IH in H as [-> Hc]; [split; lia | lia | lia].
Qed.

Lemma strncat_inv dest src n r :
  CString.strncat dest src n = Done r ->
  x00 ∈ dest /\
  exists ss, CString.strnlen src (Z.to_nat n) = Done ss /\
             (length (until_nul dest) + ss + 1 <= length dest)%nat /\
             r = until_nul dest ++ take ss src ++ [x00] ++
                 drop (length (until_nul dest) + ss + 1) dest.
Proof.
  unfold CString.strncat.
  destruct (CString.strlen dest) as [|k] eqn:Hk; simpl; [done|].
  apply strlen_inv in Hk as [Hin ->].
  destruct (CString.strnlen src _) as [|ss]; simpl; [done|].
  destruct (decide _); [|done]. intros [= <-]. split; [done|].
  exists ss. rewrite take_until_nul. done.
Qed.

Lemma lens_take_pair count key val rest :
  lens (take (2 * S count) (Block key :: Block val :: rest)) =
  Z.of_nat (length (until_nul key)) + Z.of_nat (length (until_nul val)) +
  lens (take (2 * count) rest).
Proof.
  replace (2 * S count)%nat with (S (S (2 * count))) by lia.
  cbn [take lens foldr]. unfold lens. lia.
Qed.

Lemma snprintf_exact buf s :
  length buf = S (length s) ->
  CString.snprintf buf (S (length s)) s = Done (s ++ [x00]).
Proof.
  intros Hl. unfold CString.snprintf. rewrite decide_True by lia.
  rewrite take_ge by lia. rewrite drop_ge by lia. done.
Qed.

(** Each term of the encoder's loop takes its text and one or two more
    bytes of the accumulation array, whose size never changes. *)
Lemma assemble_spec count : forall i data env enc enc',
  assemble count i data env enc = Done enc' ->
  footprint data < C.SIZE_MAX ->
  length enc' = length enc /\
  Z.of_nat (length (until_nul enc')) =
    Z.of_nat (length (until_nul enc))
    + lens (take (2 * count) (drop i data))
    + 2 * Z.of_nat count
    - (if decide (i = O /\ (0 < count)%nat) then 1 else 0).
Proof.
  induction count as [|count IH]; intros i data env enc enc'; simpl assemble.
  - intros [= <-] _. split; [done|]. simpl.
    rewrite decide_False by lia. lia.
  - destruct (data !! i) as [[| |key]|] eqn:Hi; try done.
    destruct (data !! (i + 1)%nat) as [[| |val]|] eqn:Hi1; try done.
    destruct (CString.text_of key) as [|k] eqn:Hk; simpl; [done|].
    destruct (CString.text_of val) as [|v] eqn:Hv; simpl; [done|].
    apply text_of_inv in Hk as [Hkin ->]. apply text_of_inv in Hv as [Hvin ->].
    intros H Hfp.
    pose proof (until_nul_length_lt key Hkin) as Hkl.
    pose proof (until_nul_length_lt val Hvin) as Hvl.
    assert (Hd : drop i data = Block key :: Block val :: drop (S (S i)) data).
    { rewrite (drop_S _ _ _ Hi). f_equal. apply drop_S.
      by replace (S i) with (i + 1)%nat by lia. }
    pose proof (footprint_drop i data) as Hfd. rewrite Hd in Hfd. simpl in Hfd.
    pose proof (footprint_nonneg (drop (S (S i)) data)) as Hnn.
    set (fmt := if decide (i = O) then until_nul key ++ x3d :: until_nul val
                else x26 :: until_nul key ++ x3d :: until_nul val) in *.
    set (off := if decide (i = O) then 2 else 3) in *.
    assert (Hfmt : nul_free fmt).
    { unfold fmt. destruct (decide (i = O)); repeat first
        [ apply Forall_cons; split; [done|]
        | apply Forall_app; split
        | apply until_nul_free ]. }
    assert (Hfl : Z.of_nat (length fmt) + 1 =
                  Z.of_nat (length (until_nul key)) +
                  Z.of_nat (length (until_nul val)) + off).
    { unfold fmt, off. destruct (decide (i = O)); simpl;
        rewrite ?length_app; simpl; lia. }
    assert (Hoff : off = 3 - (if decide (i = O) then 1 else 0))
      by (unfold off; destruct (decide (i = O)); lia).
    rewrite size_t_small in H by (destruct (decide (i = O)); lia).
    rewrite <- Hfl in H.
    replace (Z.to_nat (Z.of_nat (length fmt) + 1)) with (S (length fmt)) in H by lia.
    rewrite snprintf_exact in H
      by (unfold uninit; rewrite length_map, length_seq; lia).
    simpl in H.
    rewrite strlen_Done in H
      by (rewrite elem_of_app; right; apply elem_of_cons; by left).
    simpl in H. rewrite until_nul_app_nul in H by done.
    destruct (CString.strncat enc _ _) as [|enc1] eqn:Hcat; simpl in H; [done|].
    apply strncat_inv in Hcat as (Hin & ss & Hss & Hroom & Henc1).
    rewrite strnlen_Done in Hss by (left; rewrite length_app; simpl; lia).
    rewrite Nat2Z.id, take_app_length, until_nul_id in Hss by done.
    injection Hss as <-. rewrite take_app_length in Henc1.
    assert (Hl1 : length enc1 = length enc).
    { rewrite Henc1, !length_app. simpl. rewrite length_drop. lia. }
    assert (Hu1 : until_nul enc1 = until_nul enc ++ fmt).
    { rewrite Henc1, app_assoc. apply until_nul_app_nul.
      apply Forall_app. split; [apply until_nul_free | done]. }
    apply IH in H as [Hlen Hrest]; [|done].
    split; [congruence|].
    change (S (count + S (count + 0)))%nat with (2 * S count)%nat.
    rewrite Hrest, Hu1, length_app, Hd, lens_take_pair.
    replace (i + 2)%nat with (S (S i)) by lia.
    rewrite (decide_False (P := (S (S i) = O /\ _))) by lia.
    destruct (decide (i = O)) as [->|Hi0].
    + rewrite decide_True by (split; [done|lia]). lia.
    + rewrite decide_False by tauto. lia.
Qed.

(** C6.  The array [encoded] has as many bytes as the strings have
    characters, with no room for the '=' and '&' signs nor for the
    terminator.  On every even count (the strings fitting the address
    space) the function therefore has no defined result: where the
    strings can be read at all, [strncat] writes past the end of the
    array, or [strlen] reads an array of no byte.  The plaintext of the
    claim is never handed to [curl_easy_escape]. *)
Theorem url_encode_even_overruns esc data n env :
  Z.rem n 2 = 0 ->
  footprint data < C.SIZE_MAX ->
  requests_url_encode esc data n env = Undef.
Proof.
  intros Heven Hfp. unfold requests_url_encode.
  rewrite decide_False by lia.
  destruct (sum_lengths _ _ _ _) as [|total] eqn:Hsum; simpl; [done|].
  apply sum_lengths_spec in Hsum as [Htot Hcount];
    [|lia|rewrite drop_0; lia].
  rewrite drop_0 in Htot, Hcount. simpl in Htot.
  pose proof (lens_le_footprint (take (Z.to_nat n) data)) as Hle.
  destruct (CString.snprintf _ _ _) as [|enc0] eqn:Hsn; simpl; [done|].
  assert (Henc0 : length enc0 = Z.to_nat total /\
                  (x00 ∈ enc0 -> until_nul enc0 = [])).
  { unfold CString.snprintf, uninit in Hsn.
    rewrite length_map, length_seq, decide_True in Hsn by lia.
    destruct (Z.to_nat total) as [|m] eqn:Hm.
    - injection Hsn as <-. done.
    - injection Hsn as <-. rewrite take_nil. simpl.
      rewrite drop_0, length_map, length_seq. done. }
  destruct Henc0 as [Hl0 Hu0].
  destruct (assemble _ _ _ _ _) as [|enc] eqn:Hasm; simpl; [done|].
  destruct (CString.text_of enc) as [|plain] eqn:Hplain; simpl; [done|].
  exfalso. apply text_of_inv in Hplain as [Hin _].
  pose proof (until_nul_length_lt enc Hin) as Hlt.
  apply assemble_spec in Hasm as [Hlen Hu]; [|done].
  rewrite drop_0 in Hu.
  pose proof (Z.quot_rem' n 2) as Hq. rewrite Heven in Hq.
  set (m := n ÷ 2) in *. clearbody m. clear Heven.
  destruct (decide (m <= 0)) as [Hm|Hm].
  - (* no string at all: the array has no byte to hold a terminator *)
    clear Hu. replace (Z.to_nat n) with O in * by lia. simpl in Htot. lia.
  - assert (Hc : (n + 1) / 2 = m)
      by (symmetry; apply Z.div_unique with 1; lia).
    rewrite Hc in Hu.
    replace (2 * Z.to_nat m)%nat with (Z.to_nat n) in Hu by lia.
    rewrite decide_True in Hu by (split; [done|lia]).
    lia.
Qed.

(** C6, witness: the four strings of the specification's own example. *)
Lemma url_encode_even_overruns_witness :
  requests_url_encode (fun plain => plain ++ [x00])
    [Block (lit "a"); Block (lit "1"); Block (lit "b"); Block (lit "2")] 4 linux
  = Undef.
Proof.
  apply url_encode_even_overruns; vm_compute; reflexivity.
Defined.

(** C7.  [requests_url_encode] returns [NULL] if and only if the count is
    odd; for the three strings a, 1, b and the count 3 it returns [NULL]. *)
Theorem url_encode_null_iff_odd esc data n env :
  (requests_url_encode esc data n env = Done Null <-> Z.odd n = true) /\
  requests_url_encode esc [Block (lit "a"); Block (lit "1"); Block (lit "b")]
                      3 env = Done Null.
Proof.
  split; [|reflexivity].
  unfold requests_url_encode. rewrite Zodd_rem.
  destruct (decide (Z.rem n 2 <> 0)) as [Hodd|Heven].
  - apply Z.eqb_neq in Hodd. rewrite Hodd. done.
  - assert (Z.rem n 2 = 0) as -> by lia. simpl.
    split; [|done].
    destruct (sum_lengths _ _ _ _); simpl; [done|].
    destruct (CString.snprintf _ _ _); simpl; [done|].
    destruct (assemble _ _ _ _ _); simpl; [done|].
    destruct (CString.text_of _); simpl; done.
Qed.

(** *** The success verdict *)


(** C3 (as amended).  After [check_ok] the flag is ok (1) exactly when the
    status code is below 400 and not 0, and not-ok (0) otherwise; for a
    status code that is not negative this is [0 < code < 400].  In
    particular 200 gives ok, and 404, 500 and 0 give not-ok. *)
Theorem check_ok_verdict (req : req_t) :
  (ok (check_ok req) = 1 <-> code req < 400 /\ code req <> 0) /\
  (ok (check_ok req) = 0 <-> ~ (code req < 400 /\ code req <> 0)) /\
  (0 <= code req -> (ok (check_ok req) = 1 <-> 0 < code req < 400)) /\
  ok (check_ok (set_code 200 req)) = 1 /\
  ok (check_ok (set_code 404 req)) = 0 /\
  ok (check_ok (set_code 500 req)) = 0 /\
  ok (check_ok (set_code 0 req)) = 0.
Proof.
  assert (Hv : ok (check_ok req) = 1 /\ code req < 400 /\ code req <> 0 \/
               ok (check_ok req) = 0 /\ ~ (code req < 400 /\ code req <> 0)).
  { unfold check_ok.
    destruct (code req >=? 400) eqn:E1, (code req =? 0) eqn:E2; simpl; lia. }
  repeat split; try reflexivity; lia.
Qed.

(** C3, the claim as stated fails on a negative status code: -1 is
    not in the open interval (0, 400) but is given the verdict ok. *)
Lemma check_ok_negative_code :
  let req := mk_req (-1) Null Null 0 Null 0 Null 0 (-1) in
  ~ (ok (check_ok req) = 1 <-> 0 < code req < 400).
Proof. simpl. intros [H _]. specialize (H eq_refl). lia. Qed.

(** C3, witness: a redirect is ok. *)
Lemma check_ok_verdict_witness : ok (check_ok (set_code 302 fresh_req)) = 1.
Proof.
  destruct (check_ok_verdict (set_code 302 fresh_req)) as [Hok _].
  apply Hok. simpl. lia.
Defined.

(** ** Further properties of the code *)

Lemma body_inv_same_text req req' body :
  body_inv req body -> text req' = text req -> size req' = size req ->
  body_inv req' body.
Proof.
  intros (buf & Ht & Hl & Hin & Hb) Ht' Hs'. exists buf.
  rewrite Ht', Hs'. done.
Qed.

Lemma resp_inv_same_resp req req' slots :
  resp_inv req slots -> resp_hdrv req' = resp_hdrv req ->
  resp_hdrc req' = resp_hdrc req -> resp_inv req' slots.
Proof. intros [Hv Hc] Hv' Hc'. split; congruence. Qed.

Lemma stored_lines_app a b : stored_lines (a ++ b) = stored_lines a ++ stored_lines b.
Proof. unfold stored_lines. by rewrite filter_app, map_app. Qed.

Lemma deliver_run opts evs : forall req body slots,
  wired opts ->
  Forall sound_event evs ->
  body_inv req body -> resp_inv req slots ->
  0 <= size req ->
  size req + total_bytes (bodies evs) + 1 <= C.SIZE_MAX ->
  Z.of_nat (length slots) + Z.of_nat (length (headers evs)) <= C.INT_MAX ->
  exists req',
    deliver opts evs req = Done req' /\
    body_inv req' (appended body (bodies evs)) /\
    size req' = size req + total_bytes (bodies evs) /\
    resp_inv req' (slots ++ stored_lines (headers evs)) /\
    same_request req req'.
Proof.
  intros req body slots (Hwf & Hwd & Hhf & Hhd) Hev.
  revert req body slots.
  induction Hev as [|[d|d] evs He Hev' IH]; intros req body slots Hb Hr Hsz Hfit Hmax;
    simpl in *.
  - exists req. unfold appended. simpl. rewrite !app_nil_r, Z.add_0_r.
    repeat split; try done; apply Hr.
  - destruct He as [Hd Ha]. rewrite Hwf, Hwd. simpl.
    pose proof (total_bytes_nonneg (bodies evs)) as Hnn.
    assert (Hds : Forall delivered (bodies evs)).
    { clear -Hev'. induction Hev' as [|[e|e] evs He _ IH]; simpl; try done.
      constructor; [apply He | done]. }
    specialize (Hnn Hds).
    destruct Hd as [Hs Hn Hf Hrd]. unfold byte_count in *.
    assert (Hp : 0 <= d_size d * d_nmemb d) by (apply Z.mul_nonneg_nonneg; lia).
    destruct (resp_callback_step (d_content d) (d_size d) (d_nmemb d) req
                (d_allocs d) body) as (req1 & -> & Hb1 & Hsz1 & Hsame1);
      try done; try lia.
    simpl. destruct Hsame1 as (Hc1 & Hu1 & Ho1 & Hqv1 & Hqc1 & Hrv1 & Hrc1).
    destruct (IH req1 _ slots Hb1) as (req' & -> & Hb' & Hsz' & Hr' & Hsame');
      try lia.
    { by apply (resp_inv_same_resp req). }
    exists req'. split; [done|]. unfold appended in *. simpl.
    rewrite <- app_assoc in Hb'. split; [done|]. split; [lia|]. split; [done|].
    unfold same_request in *. intuition congruence.
  - destruct He as [Hd Ha]. rewrite Hhf, Hhd. simpl.
    destruct (header_callback_step d req slots) as (req1 & -> & Hr1 & Hsame1);
      try done; try lia.
    simpl. destruct Hsame1 as (Hc1 & Hu1 & Ho1 & Ht1 & Hs1 & Hqv1 & Hqc1).
    pose proof (stored_lines_length [d]) as Hl1. simpl in Hl1.
    destruct (IH req1 body _ (body_inv_same_text _ _ _ Hb Ht1 Hs1) Hr1)
      as (req' & -> & Hb' & Hsz' & Hr' & Hsame'); try lia.
    { rewrite length_app. lia. }
    exists req'. split; [done|]. split; [done|]. split; [lia|].
    split.
    + rewrite stored_lines_cons, app_assoc. done.
    + unfold same_request in *. intuition congruence.
Qed.

(** *** User agent *)

Lemma user_agent_runs env :
  x00 ∈ sysname env -> x00 ∈ release env ->
  user_agent env =
    Done (if ua_malloc env
          then Block (String.list_byte_of_string "librequests/0.1 " ++
                      until_nul (sysname env) ++ [x2f] ++
                      until_nul (release env) ++ [x00])
          else Null).
Proof.
  intros Hk Hv. unfold user_agent.
  change (CString.text_of (lit "librequests/0.1"))
    with (Done (String.list_byte_of_string "librequests/0.1")).
  rewrite (text_of_Done _ Hk), (text_of_Done _ Hv).
  cbn [mbind res_bind]. destruct (ua_malloc env); [|done].
  set (b := String.list_byte_of_string "librequests/0.1").
  set (k := until_nul (sysname env)). set (v := until_nul (release env)).
  set (fmt := b ++ [x20] ++ k ++ [x2f] ++ v).
  assert (Hsz : Z.to_nat (3 + (Z.of_nat (length b) + Z.of_nat (length k) +
                               Z.of_nat (length v))) = S (length fmt)).
  { unfold fmt. rewrite !length_app. simpl. lia. }
  rewrite Hsz, snprintf_exact.
  - cbn [mbind res_bind]. do 2 f_equal. unfold fmt, b.
    rewrite <- !app_assoc. reflexivity.
  - unfold uninit. rewrite length_map, length_seq. lia.
Qed.

(** X1.  On a system whose name and release are C strings, [user_agent]
    returns exactly [librequests/0.1 <sysname>/<release>] with its
    terminator, nothing cut off, and [NULL] when its [malloc] fails. *)
Theorem user_agent_text env :
  x00 ∈ sysname env -> x00 ∈ release env ->
  user_agent env =
    Done (if ua_malloc env
          then Block (String.list_byte_of_string "librequests/0.1 " ++
                      until_nul (sysname env) ++ [x2f] ++
                      until_nul (release env) ++ [x00])
          else Null).
Proof.
  repeat match goal with H : _ |- _ => revert H end.
  exact user_agent_runs.
Qed.

(** *** GET *)

Lemma check_ok_code req : code (check_ok req) = code req.
Proof. unfold check_ok. by destruct (_ || _). Qed.

Lemma check_ok_ok req : ok (check_ok req) = verdict (code req).
Proof.
  unfold check_ok, verdict.
  destruct (code req >=? 400) eqn:E1, (code req =? 0) eqn:E2; simpl;
    [rewrite decide_False by lia..|rewrite decide_True by lia]; done.
Qed.

Lemma check_ok_rest req :
  url (check_ok req) = url req /\ text (check_ok req) = text req /\
  size (check_ok req) = size req /\
  req_hdrv (check_ok req) = req_hdrv req /\ req_hdrc (check_ok req) = req_hdrc req /\
  resp_hdrv (check_ok req) = resp_hdrv req /\ resp_hdrc (check_ok req) = resp_hdrc req.
Proof. unfold check_ok. by destruct (_ || _). Qed.

(** The shared tail on a live handle with both callbacks installed. *)
Lemma perform_and_finish_runs curl req ua x body slots :
  live curl = true -> wired (options curl) -> ua <> Wild ->
  Forall sound_event (x_events x) ->
  body_inv req body -> resp_inv req slots ->
  0 <= size req ->
  size req + total_bytes (bodies (x_events x)) + 1 <= C.SIZE_MAX ->
  Z.of_nat (length slots) + Z.of_nat (length (headers (x_events x))) <= C.INT_MAX ->
  exists curl' req',
    perform_and_finish curl req ua x = Done (x_rc x, curl', req') /\
    performed curl' = performed curl ++ [options curl] /\
    live curl' = bool_decide (x_rc x <> C.CURLE_OK) /\
    body_inv req' (appended body (bodies (x_events x))) /\
    size req' = size req + total_bytes (bodies (x_events x)) /\
    resp_inv req' (slots ++ stored_lines (headers (x_events x))) /\
    url req' = url req /\
    req_hdrv req' = req_hdrv req /\ req_hdrc req' = req_hdrc req /\
    code req' = (if decide (x_rc x = C.CURLE_OK) then x_code x else code req) /\
    ok req' = (if decide (x_rc x = C.CURLE_OK) then verdict (x_code x) else ok req).
Proof.
  intros Hlive Hw Hua Hev Hb Hr Hsz Hfit Hmax.
  destruct (deliver_run (options curl) (x_events x) req body slots)
    as (req1 & Hrun & Hb1 & Hsz1 & Hr1 & Hc1 & Hu1 & Ho1 & Hqv1 & Hqc1); try done.
  unfold perform_and_finish, curl_easy_perform. rewrite Hlive, Hrun.
  cbn [mbind res_bind].
  destruct (decide (x_rc x <> C.CURLE_OK)) as [Hne|Heq].
  - eexists _, _. split; [reflexivity|]. simpl.
    rewrite bool_decide_eq_true_2, !decide_False by done.
    repeat split; try done; apply Hr1.
  - assert (Hrc : x_rc x = C.CURLE_OK) by (destruct (decide (x_rc x = C.CURLE_OK)); tauto).
    assert (Hfree : exists u, free ua = Done u)
      by (destruct ua as [| |b]; [by exists Null | done | by exists Wild]).
    destruct Hfree as [u ->]. cbn [mbind res_bind].
    eexists _, _. split; [reflexivity|]. simpl.
    rewrite bool_decide_eq_false_2, !decide_True by done.
    pose proof (check_ok_rest (set_code (x_code x) req1))
      as (Hu & Ht & Hs & Hqv & Hqc & Hrv & Hrc').
    split; [done|]. split; [done|].
    split. { eapply body_inv_same_text; [exact Hb1| |]; simpl in *; congruence. }
    split. { rewrite Hs. done. }
    split. { eapply resp_inv_same_resp; [exact Hr1| |]; simpl in *; congruence. }
    rewrite Hu, Hqv, Hqc, check_ok_code, check_ok_ok. simpl. done.
Qed.

Lemma common_opt_live curl req : live (common_opt curl req) = live curl.
Proof. reflexivity. Qed.



Lemma strndup_whole h :
  x00 ∈ h ->
  CString.strndup h (Z.of_nat (length (until_nul h))) true =
    Done (Block (until_nul h ++ [x00])).
Proof.
  intros Hin. unfold CString.strndup. rewrite Nat2Z.id.
  rewrite strnlen_Done by (by right). cbn [mbind res_bind].
  rewrite take_until_nul_take, until_nul_take, take_ge by done. done.
Qed.

Lemma pt_headers_runs count : forall i v al sl slist req slots,
  (i + count <= length v)%nat ->
  Forall c_string (take count (drop i v)) ->
  (forall k, al k = (true, true)) ->
  req_inv req slots ->
  Z.of_nat (length slots) + Z.of_nat count <= C.INT_MAX ->
  exists slist' req',
    pt_headers count i v al sl slist req = Done (true, slist', req') /\
    ((forall k, (k < count)%nat -> sl (S (i + k)) = true) ->
     slist' = slist ++ map header_copy (take count (drop i v))) /\
    (count <> 0%nat -> sl (i + count)%nat = false -> slist' = []) /\
    req_inv req' (slots ++ map (fun p => Block (header_copy p))
                              (take count (drop i v))) /\
    same_but_req req req'.
Proof.
  induction count as [|count IH];
    intros i v al sl slist req slots Hlen Hcs Hal Hinv Hmax.
  - exists slist, req. simpl. rewrite !app_nil_r. split; [done|].
    split; [done|]. split; [done|]. split; [done|]. by repeat split.
  - assert (Hi : is_Some (v !! i)) by (apply lookup_lt_is_Some; lia).
    destruct Hi as [p Hi]. rewrite (drop_S _ _ _ Hi) in *. simpl in Hcs.
    apply Forall_cons in Hcs as [(h & -> & Hin) Hcs].
    destruct Hinv as [Hv Hc].
    cbn [pt_headers]. rewrite Hi. unfold curl_slist_append.
    rewrite (text_of_Done _ Hin). cbn [mbind res_bind].
    rewrite Hv, Hc, Hal. cbn [fst snd].
    unfold realloc_strv. unfold C.INT_MAX, C.PTR_SIZE in *.
    rewrite (size_t_small (Z.of_nat (length slots) * 8))
      by (unfold C.SIZE_MAX, C.SIZE_MOD; lia).
    rewrite (size_t_small (Z.of_nat (length slots) * 8 + 8))
      by (unfold C.SIZE_MAX, C.SIZE_MOD; lia).
    replace ((Z.of_nat (length slots) * 8 + 8) / 8) with (Z.of_nat (length slots) + 1)
      by (apply Z.div_unique with 0; lia).
    cbn [mbind res_bind].
    rewrite (take_ge slots) by lia.
    replace (Z.to_nat (Z.of_nat (length slots) + 1) - length slots)%nat with 1%nat by lia.
    cbn [replicate req_hdrc set_req_hdrv set_req_hdrc]. rewrite ?Hc.
    rewrite decide_False by lia.
    rewrite (strlen_Done _ Hin). cbn [mbind res_bind].
    rewrite (strndup_whole _ Hin). cbn [mbind res_bind].
    rewrite ?Hc. rewrite decide_True by (rewrite length_app; simpl; lia).
    replace (Z.to_nat (Z.of_nat (length slots) + 1 - 1)) with (length slots + 0)%nat by lia.
    rewrite insert_app_r. cbn [insert list_insert].
    set (req1 := set_req_hdrv _ _).
    set (slist1 := if sl (S i) then _ else _).
    destruct (IH (S i) v al sl slist1 req1
                 (slots ++ [Block (until_nul h ++ [x00])]))
      as (slist' & req' & -> & Hall & Hlast & Hinv' & Hsame'); try done; try lia.
    { split; [done|]. unfold req1. simpl. rewrite length_app. simpl. lia. }
    { rewrite length_app. simpl. lia. }
    exists slist', req'. simpl.
    rewrite <- app_assoc in Hinv'. simpl in Hinv'.
    split; [done|]. split; [|split; [|split; [done|]]].
    + intros Hsl.
      assert (Hsl0 : sl (S i) = true).
      { rewrite <- (Hsl 0%nat) by lia. f_equal. lia. }
      rewrite Hall.
      * unfold slist1. rewrite Hsl0, <- app_assoc. done.
      * intros k Hlt. rewrite <- (Hsl (S k)) by lia. f_equal. lia.
    + intros _ Hsl. destruct count as [|count].
      * rewrite Hall by (intros k Hlt; lia). simpl. rewrite app_nil_r.
        unfold slist1. rewrite Nat.add_1_r in Hsl. by rewrite Hsl.
      * apply Hlast; [done|]. rewrite <- Hsl. f_equal. lia.
    + unfold same_but_req in *. unfold req1 in Hsame'. simpl in Hsame'. done.
Qed.

(** [requests_pt] on a well-behaved exchange, with the list of outgoing
    headers it installs when no body is given: the list the code means to
    build when every [curl_slist_append] succeeds, and [NULL] when the last
    one fails. *)
Lemma pt_runs_sent
    curl req url_ data custom_hdrv custom_hdrc put_flag env al x body slots qslots :
  live curl = true ->
  x00 ∈ sysname env -> x00 ∈ release env ->
  customs_ok custom_hdrv custom_hdrc ->
  (forall k, al k = (true, true)) ->
  Forall sound_event (x_events x) ->
  body_inv req body -> resp_inv req slots -> req_inv req qslots ->
  0 <= size req ->
  size req + total_bytes (bodies (x_events x)) + 1 <= C.SIZE_MAX ->
  Z.of_nat (length slots) + Z.of_nat (length (headers (x_events x))) <= C.INT_MAX ->
  Z.of_nat (length qslots) + Z.of_nat (length (customs custom_hdrv custom_hdrc))
    <= C.INT_MAX ->
  exists curl' req' opts,
    requests_pt curl req url_ data custom_hdrv custom_hdrc put_flag env al x
      = Done (x_rc x, curl', req') /\
    performed curl' = performed curl ++ [opts] /\
    (is_null data = true -> (forall k, slist_ok env k = true) ->
     opts CURLOPT_HTTPHEADER =
       OptList (lit "Content-Length: 0" ::
                map header_copy (customs custom_hdrv custom_hdrc))) /\
    (is_null data = true ->
     slist_ok env (length (customs custom_hdrv custom_hdrc)) = false ->
     opts CURLOPT_HTTPHEADER = OptList []) /\
    live curl' = bool_decide (x_rc x <> C.CURLE_OK) /\
    url req' = url_ /\
    req_inv req' (qslots ++ map (fun p => Block (header_copy p))
                                (customs custom_hdrv custom_hdrc)) /\
    body_inv req' (appended body (bodies (x_events x))) /\
    size req' = size req + total_bytes (bodies (x_events x)) /\
    resp_inv req' (slots ++ stored_lines (headers (x_events x))) /\
    code req' = (if decide (x_rc x = C.CURLE_OK) then x_code x else code req) /\
    ok req' = (if decide (x_rc x = C.CURLE_OK) then verdict (x_code x) else ok req).
Proof.
  intros Hlive Hk Hv Hcu Hal Hev Hb Hr Hq Hsz Hfit Hmax Hqmax.
  unfold requests_pt. rewrite (user_agent_runs env Hk Hv). cbn [mbind res_bind].
  set (ua := if ua_malloc env then _ else _).
  assert (Hua : ua <> Wild) by (unfold ua; by destruct (ua_malloc env)).
  (* the body part never fails *)
  set (st := if negb (is_null data) then _ else _).
  assert (Hst : exists curl1 slist,
            st = Done (curl1, slist) /\ live curl1 = true /\
            performed curl1 = performed curl /\
            (is_null data = true ->
             slist = (if slist_ok env 0 then [lit "Content-Length: 0"] else []) /\
             (custom_hdrv = Null ->
              options curl1 CURLOPT_HTTPHEADER = OptList slist))).
  { unfold st. destruct (is_null data); cbn [negb].
    - eexists _, _. split; [reflexivity|].
      split; [by destruct (is_null custom_hdrv)|].
      split; [by destruct (is_null custom_hdrv)|].
      intros _. split; [done|]. by intros ->.
    - eexists _, _. split; [reflexivity|]. done. }
  destruct Hst as (curl1 & slist & Hst & Hl1 & Hp1 & Hs1). rewrite Hst. clear Hst st.
  cbn [mbind res_bind].
  (* the header part *)
  assert (Hhs : exists curl2 req2,
            (match custom_hdrv with
             | Null => Done (true, curl1, set_url url_ req)
             | Wild =>
                 if decide (0 < custom_hdrc) then Undef
                 else Done (true,
                            curl_easy_setopt curl1 CURLOPT_HTTPHEADER (OptList slist),
                            set_url url_ req)
             | Block v =>
                 '(filled, slist, req) ←
                   pt_headers (Z.to_nat custom_hdrc) 0 v al (slist_ok env) slist
                     (set_url url_ req);
                 Done (filled,
                       if (filled : bool)
                       then curl_easy_setopt curl1 CURLOPT_HTTPHEADER (OptList slist)
                       else curl1,
                       req)
             end) = Done (true, curl2, req2) /\
            live curl2 = true /\
            performed curl2 = performed curl /\
            (is_null data = true -> (forall k, slist_ok env k = true) ->
             options curl2 CURLOPT_HTTPHEADER =
               OptList (lit "Content-Length: 0" ::
                        map header_copy (customs custom_hdrv custom_hdrc))) /\
            (is_null data = true ->
             slist_ok env (length (customs custom_hdrv custom_hdrc)) = false ->
             options curl2 CURLOPT_HTTPHEADER = OptList []) /\
            req_inv req2 (qslots ++ map (fun p => Block (header_copy p))
                                        (customs custom_hdrv custom_hdrc)) /\
            same_but_req (set_url url_ req) req2).
  { destruct custom_hdrv as [| |v]; simpl in *.
    - eexists _, _. split; [reflexivity|]. rewrite app_nil_r.
      split; [done|]. split; [done|].
      split.
      { intros Hd Hsl. destruct (Hs1 Hd) as [Hs0 Ho0].
        by rewrite (Ho0 eq_refl), Hs0, Hsl. }
      split.
      { intros Hd Hsl. destruct (Hs1 Hd) as [Hs0 Ho0].
        by rewrite (Ho0 eq_refl), Hs0, Hsl. }
      split; [done|]. by repeat split.
    - rewrite decide_False by lia. eexists _, _. split; [reflexivity|].
      rewrite app_nil_r. split; [done|]. split; [done|].
      split. { intros Hd Hsl. destruct (Hs1 Hd) as [-> _]. by rewrite Hsl. }
      split. { intros Hd Hsl. destruct (Hs1 Hd) as [-> _]. by rewrite Hsl. }
      split; [done|]. by repeat split.
    - destruct Hcu as [Hlen Hcs]. rewrite length_take in Hqmax.
      destruct (pt_headers_runs (Z.to_nat custom_hdrc) 0 v al (slist_ok env) slist
                  (set_url url_ req) qslots)
        as (slist' & req2 & Hrun & Hall & Hlast & Hinv2 & Hsame2); try done; try lia.
      rewrite drop_0 in *. rewrite Hrun. cbn [mbind res_bind].
      eexists _, _. split; [reflexivity|]. split; [done|]. split; [done|].
      split; [|split; [|done]].
      + intros Hd Hsl. destruct (Hs1 Hd) as [-> _].
        rewrite Hall by (intros k _; apply Hsl). by rewrite Hsl.
      + intros Hd Hsl. rewrite length_take, Nat.min_l in Hsl by done.
        destruct (Z.to_nat custom_hdrc) as [|n] eqn:En.
        * rewrite Hall by (intros k Hlt; lia). simpl.
          destruct (Hs1 Hd) as [-> _]. by rewrite Hsl.
        * by rewrite Hlast. }
  destruct Hhs as (curl2 & req2 & -> & Hl2 & Hp2 & Hh2 & Hn2 & Hq2
                   & Hc2 & Hu2 & Ho2 & Ht2 & Hs2 & Hrv2 & Hrc2).
  cbn [mbind res_bind negb].
  set (curl3 := curl_easy_setopt _ CURLOPT_USERAGENT _).
  assert (Hh3 : options curl3 CURLOPT_HTTPHEADER = options curl2 CURLOPT_HTTPHEADER).
  { unfold curl3. by destruct (decide (put_flag <> 0)). }
  assert (Hp3 : performed curl3 = performed curl).
  { unfold curl3. by destruct (decide (put_flag <> 0)). }
  destruct (perform_and_finish_runs curl3 req2 ua x body slots)
    as (curl' & req' & -> & Hp & Hl & Hb' & Hsz' & Hr' & Hu' & Hqv & Hqc & Hc & Ho);
    try done; try (simpl in *; lia).
  - unfold curl3. by destruct (decide (put_flag <> 0)).
  - unfold curl3. by destruct (decide (put_flag <> 0)).
  - eapply body_inv_same_text; [exact Hb|done|done].
  - eapply resp_inv_same_resp; [exact Hr|done|done].
  - exists curl', req', (options curl3). split; [reflexivity|].
    split; [by rewrite Hp, Hp3|].
    split; [by rewrite Hh3|]. split; [by rewrite Hh3|].
    split; [done|].
    split; [simpl in *; congruence|].
    split. { destruct Hq2 as [Hq2v Hq2c]. split; congruence. }
    split; [done|]. split; [simpl in *; lia|]. split; [done|].
    simpl in *. rewrite Hc, Ho, Hc2, Ho2. done.
Qed.

Lemma pt_runs
    curl req url_ data custom_hdrv custom_hdrc put_flag env al x body slots qslots :
  live curl = true ->
  x00 ∈ sysname env -> x00 ∈ release env ->
  customs_ok custom_hdrv custom_hdrc ->
  (forall k, al k = (true, true)) ->
  Forall sound_event (x_events x) ->
  body_inv req body -> resp_inv req slots -> req_inv req qslots ->
  0 <= size req ->
  size req + total_bytes (bodies (x_events x)) + 1 <= C.SIZE_MAX ->
  Z.of_nat (length slots) + Z.of_nat (length (headers (x_events x))) <= C.INT_MAX ->
  Z.of_nat (length qslots) + Z.of_nat (length (customs custom_hdrv custom_hdrc))
    <= C.INT_MAX ->
  exists curl' req',
    requests_pt curl req url_ data custom_hdrv custom_hdrc put_flag env al x
      = Done (x_rc x, curl', req') /\
    live curl' = bool_decide (x_rc x <> C.CURLE_OK) /\
    url req' = url_ /\
    req_inv req' (qslots ++ map (fun p => Block (header_copy p))
                                (customs custom_hdrv custom_hdrc)) /\
    body_inv req' (appended body (bodies (x_events x))) /\
    size req' = size req + total_bytes (bodies (x_events x)) /\
    resp_inv req' (slots ++ stored_lines (headers (x_events x))) /\
    code req' = (if decide (x_rc x = C.CURLE_OK) then x_code x else code req) /\
    ok req' = (if decide (x_rc x = C.CURLE_OK) then verdict (x_code x) else ok req).
Proof.
  intros Hlive Hk Hv Hcu Hal Hev Hb Hr Hq Hsz Hfit Hmax Hqmax.
  destruct (pt_runs_sent curl req url_ data custom_hdrv custom_hdrc put_flag
              env al x body slots qslots)
    as (curl' & req' & opts & Hrun & _ & _ & _ & H); try done.
  by exists curl', req'.
Qed.

(** C4.  [requests_pt] does not check what [curl_slist_append] returns.
    A call without body on a well-behaved exchange performs it, and the
    list of outgoing headers in force is then: ["Content-Length: 0"]
    followed by a copy of each custom header (that header alone when there
    are none) when every append succeeds; [NULL] when the last append
    fails, so that the exchange is performed with no header at all,
    ["Content-Length: 0"] included. *)
Theorem content_length_zero_can_be_lost
    curl req url_ custom_hdrv custom_hdrc put_flag env al x body slots qslots :
  live curl = true ->
  x00 ∈ sysname env -> x00 ∈ release env ->
  customs_ok custom_hdrv custom_hdrc ->
  (forall k, al k = (true, true)) ->
  Forall sound_event (x_events x) ->
  body_inv req body -> resp_inv req slots -> req_inv req qslots ->
  0 <= size req ->
  size req + total_bytes (bodies (x_events x)) + 1 <= C.SIZE_MAX ->
  Z.of_nat (length slots) + Z.of_nat (length (headers (x_events x))) <= C.INT_MAX ->
  Z.of_nat (length qslots) + Z.of_nat (length (customs custom_hdrv custom_hdrc))
    <= C.INT_MAX ->
  exists curl' req' opts,
    requests_pt curl req url_ Null custom_hdrv custom_hdrc put_flag env al x
      = Done (x_rc x, curl', req') /\
    performed curl' = performed curl ++ [opts] /\
    ((forall k, slist_ok env k = true) ->
     opts CURLOPT_HTTPHEADER =
       OptList (lit "Content-Length: 0" ::
                map header_copy (customs custom_hdrv custom_hdrc))) /\
    (slist_ok env (length (customs custom_hdrv custom_hdrc)) = false ->
     opts CURLOPT_HTTPHEADER = OptList []).
Proof.
  intros Hlive Hk Hv Hcu Hal Hev Hb Hr Hq Hsz Hfit Hmax Hqmax.
  destruct (pt_runs_sent curl req url_ Null custom_hdrv custom_hdrc put_flag
              env al x body slots qslots)
    as (curl' & req' & opts & Hrun & Hp & Hall & Hlast & _); try done.
  exists curl', req', opts. split; [exact Hrun|]. split; [exact Hp|].
  split; [exact (Hall eq_refl) | exact (Hlast eq_refl)].
Qed.

(** With custom headers the loss need not be of the whole list: when the
    append of the first custom header fails and the next one succeeds, the
    exchange is performed with the second custom header alone. *)
Example content_length_zero_dropped_among_custom_headers :
  exists curl' req' opts,
    requests_post_headers curl_easy_init_handle fresh_req example_url Null
      two_headers 2 one_append_fails all_fine answered = Done (0, curl', req') /\
    performed curl' = [opts] /\
    opts CURLOPT_HTTPHEADER = OptList [lit "X-Trace: 1"].
Proof.
  eexists _, _, _. split; [vm_compute; reflexivity|].
  split; [reflexivity|]. vm_compute. reflexivity.
Qed.

(** X3.  [requests_pt] under the same conditions, the custom headers being
    C strings: the call returns the engine's outcome, and a copy of each
    custom header is appended, in order, to the request headers the
    context already records; the response is gathered and the verdict
    computed as by [requests_get]. *)
Theorem requests_pt_runs
    curl req url_ data custom_hdrv custom_hdrc put_flag env al x body slots qslots :
  live curl = true ->
  x00 ∈ sysname env -> x00 ∈ release env ->
  customs_ok custom_hdrv custom_hdrc ->
  (forall k, al k = (true, true)) ->
  Forall sound_event (x_events x) ->
  body_inv req body -> resp_inv req slots -> req_inv req qslots ->
  0 <= size req ->
  size req + total_bytes (bodies (x_events x)) + 1 <= C.SIZE_MAX ->
  Z.of_nat (length slots) + Z.of_nat (length (headers (x_events x))) <= C.INT_MAX ->
  Z.of_nat (length qslots) + Z.of_nat (length (customs custom_hdrv custom_hdrc))
    <= C.INT_MAX ->
  exists curl' req',
    requests_pt curl req url_ data custom_hdrv custom_hdrc put_flag env al x
      = Done (x_rc x, curl', req') /\
    live curl' = bool_decide (x_rc x <> C.CURLE_OK) /\
    url req' = url_ /\
    req_inv req' (qslots ++ map (fun p => Block (header_copy p))
                                (customs custom_hdrv custom_hdrc)) /\
    body_inv req' (appended body (bodies (x_events x))) /\
    size req' = size req + total_bytes (bodies (x_events x)) /\
    resp_inv req' (slots ++ stored_lines (headers (x_events x))) /\
    code req' = (if decide (x_rc x = C.CURLE_OK) then x_code x else code req) /\
    ok req' = (if decide (x_rc x = C.CURLE_OK) then verdict (x_code x) else ok req).
Proof.
  repeat match goal with H : _ |- _ => revert H end.
  exact pt_runs.
Qed.

Lemma pt_headers_same count : forall i v al sl slist req filled slist' req',
  pt_headers count i v al sl slist req = Done (filled, slist', req') ->
  same_but_req req req'.
Proof.
  induction count as [|count IH];
    intros i v al sl slist req filled slist' req'; simpl.
  - intros [= <- <- <-]. by repeat split.
  - destruct (v !! i) as [[| |h]|]; try done.
    unfold curl_slist_append.
    destruct (CString.text_of h); simpl; [done|].
    destruct (realloc_strv _ _ _) as [|[| |slots]]; simpl; try done;
      try (intros [= <- <- <-]; by repeat split).
    destruct (decide _); [done|].
    destruct (CString.strlen h); simpl; [done|].
    destruct (CString.strndup _ _ _); simpl; [done|].
    destruct (decide _); [|done].
    intros H. apply IH in H. unfold same_but_req in *. simpl in H. done.
Qed.

(** X4.  Whenever [requests_pt] performs an exchange, the options in force
    for it are: the url given, both callbacks installed on the context,
    the body as [CURLOPT_POSTFIELDS] when there is one (the option is left
    as it was otherwise), [CURLOPT_CUSTOMREQUEST] set to [PUT] and
    [CURLOPT_POST] untouched for a PUT, [CURLOPT_POST] set to 1 and
    [CURLOPT_CUSTOMREQUEST] untouched for a POST; with a body and without
    custom headers no header list is installed. *)
Theorem requests_pt_request
    curl req url_ data custom_hdrv custom_hdrc put_flag env al x r :
  requests_pt curl req url_ data custom_hdrv custom_hdrc put_flag env al x
    = Done r ->
  performed r.1.2 <> performed curl ->
  exists opts,
    performed r.1.2 = performed curl ++ [opts] /\
    opts CURLOPT_URL = OptStr url_ /\
    wired opts /\
    opts CURLOPT_POSTFIELDS =
      (if is_null data then options curl CURLOPT_POSTFIELDS else OptStr data) /\
    opts CURLOPT_CUSTOMREQUEST =
      (if decide (put_flag <> 0) then OptStr (Block (lit "PUT"))
       else options curl CURLOPT_CUSTOMREQUEST) /\
    opts CURLOPT_POST =
      (if decide (put_flag <> 0) then options curl CURLOPT_POST else OptLong 1) /\
    (is_null data = false -> custom_hdrv = Null ->
     opts CURLOPT_HTTPHEADER = options curl CURLOPT_HTTPHEADER).
Proof.
  unfold requests_pt.
  destruct (user_agent env) as [|ua]; simpl; [done|].
  destruct data as [| |d]; destruct custom_hdrv as [| |v]; simpl;
    try (destruct (decide (0 < custom_hdrc)); simpl; [done|]);
    try (destruct (pt_headers _ _ _ _ _ _ _) as [|[[[|] slist'] req1]] eqn:E2;
         simpl; [done| |by intros [= <-] Hne];
         apply pt_headers_same in E2 as (_ & Hu & _); simpl in Hu);
    intros H Hne; apply perform_and_finish_spec in H as (Hp & _ & _);
    destruct (decide (put_flag <> 0)); simpl in Hp;
    (eexists; split; [exact Hp|]; repeat split; try done; simpl; congruence).
Qed.

(** *** Lifecycle *)

Lemma free_strings_runs count : forall i slots,
  (i + count <= length slots)%nat ->
  freeable (drop i slots) ->
  exists slots',
    free_strings count i (Block slots) = Done (Block slots') /\
    length slots' = length slots.
Proof.
  induction count as [|count IH]; intros i slots Hlen Hfr; simpl.
  - by exists slots.
  - assert (Hi : is_Some (slots !! i)) by (apply lookup_lt_is_Some; lia).
    destruct Hi as [p Hi]. rewrite Hi.
    rewrite (drop_S _ _ _ Hi) in Hfr. apply Forall_cons in Hfr as [Hp Hfr].
    assert (Hfree : exists p', free p = Done p')
      by (destruct p as [| |b]; [by exists Null | done | by exists Wild]).
    destruct Hfree as [p' ->]. cbn [mbind res_bind].
    destruct (IH (S i) (<[i := p']> slots)) as (slots' & -> & Hl').
    + rewrite length_insert. lia.
    + rewrite drop_insert_lt by lia. done.
    + exists slots'. split; [done|]. by rewrite Hl', length_insert.
Qed.

Lemma close_runs flag req :
  closable req ->
  exists req',
    requests_close (flag, req) = Done (1, req') /\
    text req' = (if is_null (text req) then Null else Wild) /\
    resp_hdrv req' = Wild /\ req_hdrv req' = Wild /\
    resp_hdrc req' = resp_hdrc req /\ req_hdrc req' = req_hdrc req /\
    size req' = size req /\ code req' = code req /\ ok req' = ok req.
Proof.
  intros [Ht (rs & [Hrv Hrc] & Hrf) (qs & [Hqv Hqc] & Hqf)].
  unfold requests_close. cbn [snd]. rewrite Hrv, Hrc, Hqv, Hqc, !Nat2Z.id.
  destruct (free_strings_runs (length rs) 0 rs) as (rs' & -> & _);
    [lia | by rewrite drop_0 |].
  destruct (free_strings_runs (length qs) 0 qs) as (qs' & -> & _);
    [lia | by rewrite drop_0 |].
  cbn [mbind res_bind free].
  destruct (text req) as [| |buf] eqn:Htext; [|done|];
    cbn [mbind res_bind free]; eexists; (split; [reflexivity|]); by repeat split.
Qed.

(** X5.  [requests_close] on a context whose pointers come from the
    allocator, with arrays as long as their counts: the call returns,
    [IS_FIRST] is 1, and the text and both arrays are freed, the three
    fields keeping their dangling values and the counts their numbers. *)
Theorem requests_close_runs flag req :
  closable req ->
  exists req',
    requests_close (flag, req) = Done (1, req') /\
    text req' = (if is_null (text req) then Null else Wild) /\
    resp_hdrv req' = Wild /\ req_hdrv req' = Wild /\
    resp_hdrc req' = resp_hdrc req /\ req_hdrc req' = req_hdrc req /\
    size req' = size req /\ code req' = code req /\ ok req' = ok req.
Proof.
  repeat match goal with H : _ |- _ => revert H end.
  exact close_runs.
Qed.

(** X6.  [requests_close] is not idempotent: after a close that returned,
    of a context whose text was not [NULL], a second close frees the text
    a second time. *)
Theorem requests_close_twice st st' :
  requests_close st = Done st' ->
  text st.2 <> Null ->
  requests_close st' = Undef.
Proof.
  intros H Hnn. unfold requests_close in H.
  destruct (free_strings _ _ (resp_hdrv _)) as [|r1]; cbn [mbind res_bind] in H; [done|].
  destruct (free_strings _ _ (req_hdrv _)) as [|q1]; cbn [mbind res_bind] in H; [done|].
  destruct (text st.2) as [| |buf] eqn:Ht; cbn [free mbind res_bind] in H; try done.
  destruct (free r1) as [|r2]; cbn [mbind res_bind] in H; [done|].
  destruct (free q1) as [|q2]; cbn [mbind res_bind] in H; [done|].
  injection H as <-. unfold requests_close. simpl.
  destruct (free_strings _ _ r2) as [|r3]; simpl; [done|].
  destruct (free_strings _ _ q2) as [|q3]; simpl; done.
Qed.

(** X7.  [requests_init] with successful allocations returns the handle
    of [curl_easy_init], clears [IS_FIRST] and leaves the context fresh
    (empty terminated text, empty arrays, counts and code 0, ok -1): on
    first use whatever the context held, and on reuse, after the implicit
    close, for every context that can be closed. *)
Theorem requests_init_resets st handle :
  st.1 <> 0 \/ closable st.2 ->
  requests_init st (mk_init_allocs true true true) handle =
    Done (handle, (0, fresh_req)).
Proof.
  intros H. unfold requests_init.
  destruct (st.1 =? 0) eqn:E.
  - destruct H as [H|H]; [apply Z.eqb_eq in E; done|].
    destruct st as [flag req]. simpl in H.
    destruct (close_runs flag req H) as (req' & -> & _).
    reflexivity.
  - reflexivity.
Qed.

(** X8.  [IS_FIRST] is one flag for all contexts: once a first context
    was initialised (and not closed), initialising another context whose
    text pointer was never set closes that context first, and frees the
    unset pointer. *)
Theorem requests_init_stale_flag req1 req2 handle1 handle2 a :
  text req2 = Wild ->
  exists flag,
    requests_init (1, req1) (mk_init_allocs true true true) handle1 =
      Done (handle1, (flag, fresh_req)) /\
    requests_init (flag, req2) a handle2 = Undef.
Proof.
  intros Ht. exists 0. split; [reflexivity|].
  unfold requests_init. simpl. unfold requests_close. simpl.
  destruct (free_strings _ _ (resp_hdrv req2)) as [|r1]; simpl; [done|].
  destruct (free_strings _ _ (req_hdrv req2)) as [|q1]; simpl; [done|].
  rewrite Ht. reflexivity.
Qed.

(** *** The invariant of a context in use *)

Lemma usable_closable req : usable req -> closable req.
Proof.
  intros [(body & buf & Ht & _) _ Hr Hq]. split; [|done|done].
  rewrite Ht. done.
Qed.

Lemma usable_fresh : usable fresh_req.
Proof.
  split.
  - exists []. apply body_inv_init.
  - done.
  - exists []. split; [by split | constructor].
  - exists []. split; [by split | constructor].
Qed.




(** *** Failures of the copies *)

(** X10.  When the [strndup] of [resp_callback] fails after the buffer was
    grown, the call returns [(size_t)-1] with [size] already increased by
    the byte count of the chunk, while the text is what it was: [size]
    counts bytes the buffer does not hold. *)
Theorem resp_callback_copy_failure content sz nm req a body :
  body_inv req body ->
  0 <= sz -> 0 <= nm -> 0 <= size req ->
  size req + sz * nm + 1 <= C.SIZE_MAX ->
  (Z.to_nat (sz * nm) < length content)%nat ->
  is_Some (a_realloc a) -> a_strndup a = false ->
  exists req',
    resp_callback content sz nm req a = Done (C.SIZE_MAX, req') /\
    size req' = size req + sz * nm /\
    body_inv req' body.
Proof.
  intros (buf & Ht & Hlen & Hin & Hbody) Hsz Hnm Hsize Hfit Hrd [j Hj] Hsd.
  assert (Hrs : 0 <= sz * nm) by (apply Z.mul_nonneg_nonneg; lia).
  set (rs := sz * nm) in *.
  unfold resp_callback. fold rs. rewrite Ht, Hj, Hsd.
  rewrite !size_t_small by lia. simpl.
  rewrite take_ge by lia.
  unfold CString.strndup. rewrite strnlen_Done by (left; lia). simpl.
  rewrite size_t_small by lia.
  eexists. split; [reflexivity|]. split; [done|].
  eexists. split; [reflexivity|]. simpl.
  split. { rewrite length_app, length_map, length_seq. lia. }
  split. { rewrite elem_of_app. by left. }
  by rewrite until_nul_app_elem.
Qed.

(** X11.  [header_callback] does not check its [strndup]: when the copy of
    a line fails the call still returns the byte count, the count of
    headers is increased and the new slot holds [NULL]. *)
Theorem header_callback_copy_failure d req slots :
  c_line d -> chunk d <> CRLF ->
  is_Some (a_realloc (d_allocs d)) -> a_strndup (d_allocs d) = false ->
  resp_inv req slots ->
  Z.of_nat (length slots) < C.INT_MAX ->
  exists req',
    header_callback (d_content d) (d_size d) (d_nmemb d) req (d_allocs d) =
      Done (byte_count d, req') /\
    resp_inv req' (slots ++ [Null]) /\
    same_but_resp req req'.
Proof.
  intros Hline Hnb [j Hj] Hsd [Hv Hc] Hmax.
  pose proof (c_line_content d Hline) as Hcontent.
  destruct Hline as [[Hs Hn Hfit Hr] Hfree Hterm].
  assert (Hbc : 0 <= byte_count d) by (unfold byte_count; apply Z.mul_nonneg_nonneg; lia).
  assert (Hlen : length (chunk d) = Z.to_nat (byte_count d)).
  { unfold chunk. rewrite length_take. lia. }
  assert (Hcmp : CString.strcmp_eq (d_content d) CRLF =
                 Done (bool_decide (chunk d = CRLF))).
  { rewrite Hcontent at 1. apply strcmp_eq_line; [done | by repeat constructor]. }
  unfold header_callback. fold (byte_count d). fold CRLF. rewrite Hcmp. simpl.
  rewrite bool_decide_eq_false_2 by done.
  rewrite Hv, Hc, Hj, Hsd. simpl.
  unfold C.INT_MAX, C.PTR_SIZE in *.
  unfold C.SIZE_MAX, C.SIZE_MOD in Hfit.
  rewrite (size_t_small (Z.of_nat (length slots) * 8))
    by (unfold C.SIZE_MAX, C.SIZE_MOD; lia).
  rewrite (size_t_small (Z.of_nat (length slots) * 8 + 8))
    by (unfold C.SIZE_MAX, C.SIZE_MOD; lia).
  fold (byte_count d).
  rewrite (size_t_small (byte_count d))
    by (unfold C.SIZE_MAX, C.SIZE_MOD; lia).
  rewrite (size_t_small (byte_count d + 1))
    by (unfold C.SIZE_MAX, C.SIZE_MOD; lia).
  replace ((Z.of_nat (length slots) * 8 + 8) / 8) with (Z.of_nat (length slots) + 1)
    by (apply Z.div_unique with 0; lia).
  rewrite take_ge by lia.
  replace (Z.to_nat (Z.of_nat (length slots) + 1) - length slots)%nat with 1%nat by lia.
  simpl. rewrite decide_False by lia.
  unfold CString.strndup. rewrite strnlen_Done by (left; lia). simpl.
  rewrite length_app. simpl.
  rewrite decide_True by lia.
  eexists. split; [reflexivity|]. split; [|by repeat split].
  split; simpl.
  + f_equal.
    replace (Z.to_nat (Z.of_nat (length slots) + 1 - 1)) with (length slots + 0)%nat by lia.
    rewrite insert_app_r. done.
  + rewrite length_app. simpl. lia.
Qed.

(** *** The handle *)

Lemma perform_and_finish_live curl req ua x r :
  perform_and_finish curl req ua x = Done r ->
  live r.1.2 = bool_decide (r.1.1 <> C.CURLE_OK).
Proof.
  unfold perform_and_finish, curl_easy_perform.
  destruct (live curl); simpl; [|done].
  destruct (deliver _ _ req) as [|req1]; simpl; [done|].
  destruct (decide (x_rc x <> C.CURLE_OK)).
  - intros [= <-]. simpl. by rewrite bool_decide_eq_true_2.
  - destruct (free ua); simpl; [done|]. intros [= <-]. simpl.
    by rewrite bool_decide_eq_false_2.
Qed.

Lemma perform_and_finish_dead curl req ua x :
  live curl = false -> perform_and_finish curl req ua x = Undef.
Proof. intros H. unfold perform_and_finish, curl_easy_perform. by rewrite H. Qed.

Lemma requests_get_dead curl req url_ env x :
  live curl = false -> requests_get curl req url_ env x = Undef.
Proof.
  intros H. unfold requests_get.
  destruct (user_agent env); simpl; [done|]. by apply perform_and_finish_dead.
Qed.

Lemma requests_pt_dead curl req url_ data put_flag env al x :
  live curl = false ->
  requests_pt curl req url_ data Null 0 put_flag env al x = Undef.
Proof.
  intros H. unfold requests_pt.
  destruct (user_agent env); simpl; [done|].
  destruct data; simpl; apply perform_and_finish_dead;
    by destruct (decide (put_flag <> 0)).
Qed.

Lemma requests_pt_live curl req url_ data custom_hdrv custom_hdrc put_flag env al x r :
  requests_pt curl req url_ data custom_hdrv custom_hdrc put_flag env al x = Done r ->
  r.1.1 = C.CURLE_OK -> live r.1.2 = false.
Proof.
  unfold requests_pt.
  destruct (user_agent env) as [|ua]; simpl; [done|].
  destruct data as [| |d]; destruct custom_hdrv as [| |v]; simpl;
    try (destruct (decide (0 < custom_hdrc)); simpl; [done|]);
    try (destruct (pt_headers _ _ _ _ _ _ _) as [|[[[|] slist'] req1]];
         simpl; [done| |by intros [= <-] [=]]);
    intros H Hrc; apply perform_and_finish_live in H;
    rewrite H, Hrc; reflexivity.
Qed.

(** X12.  A request that returns [CURLE_OK] has cleaned the handle up:
    every further [requests_get], [requests_post] or [requests_put] with
    that handle uses a dead handle. *)
Theorem handle_is_spent_by_success
    curl req url_ data custom_hdrv custom_hdrc put_flag env al x r :
  requests_get curl req url_ env x = Done r \/
  requests_pt curl req url_ data custom_hdrv custom_hdrc put_flag env al x = Done r ->
  r.1.1 = C.CURLE_OK ->
  forall req2 url2 data2 env2 x2,
    requests_get r.1.2 req2 url2 env2 x2 = Undef /\
    requests_post r.1.2 req2 url2 data2 env2 x2 = Undef /\
    requests_put r.1.2 req2 url2 data2 env2 x2 = Undef.
Proof.
  intros H Hrc.
  assert (Hdead : live r.1.2 = false).
  { destruct H as [H|H].
    - unfold requests_get in H.
      destruct (user_agent env); simpl in H; [done|].
      apply perform_and_finish_live in H. rewrite H, Hrc. reflexivity.
    - by eapply requests_pt_live. }
  intros req2 url2 data2 env2 x2.
  repeat split; first [by apply requests_get_dead | by apply requests_pt_dead].
Qed.

(** *** The text, whatever the chunks hold *)

(** X13.  Whatever the chunks hold, after any sequence of deliveries from
    [requests_init] on the body buffer has one byte more than were
    delivered and holds a terminated C string: of each chunk, in order,
    the bytes before its first zero byte. *)
Theorem resp_callbacks_text st handle h f req0 ds :
  requests_init st (mk_init_allocs true true true) handle = Done (h, (f, req0)) ->
  Forall delivered ds ->
  Forall (fun d => alloc_ok (d_allocs d)) ds ->
  total_bytes ds < C.SIZE_MAX ->
  exists req' buf,
    resp_callbacks ds req0 = Done req' /\
    text req' = Block buf /\
    Z.of_nat (length buf) = total_bytes ds + 1 /\
    CString.text_of buf = Done (concat (map (fun d => until_nul (chunk d)) ds)).
Proof.
  intros (_ & _ & ->)%requests_init_ok Hdl Hal Hfit.
  destruct (resp_callbacks_run ds _ [] body_inv_init) as
    (req' & Hrun & (buf & Ht & Hlen & Hin & Hbody) & Hsz & _);
    simpl; try done; try lia.
  exists req', buf. split; [done|]. split; [done|]. simpl in *.
  split; [lia|]. by rewrite text_of_Done, Hbody.
Qed.

(** *** A failed growth of the body *)

(** X14.  When the [realloc] of [resp_callback] fails, the call returns
    [(size_t)-1], [text] is [NULL] and [size] is unchanged; the context
    can still be closed. *)
Theorem resp_callback_growth_failure content sz nm flag req a :
  closable req -> a_realloc a = None ->
  exists req',
    resp_callback content sz nm req a = Done (C.SIZE_MAX, req') /\
    text req' = Null /\ size req' = size req /\
    exists req'', requests_close (flag, req') = Done (1, req'').
Proof.
  intros Hcl Ha. unfold resp_callback. rewrite Ha.
  assert (Hre : realloc (text req) (C.size_t (size req + C.size_t (sz * nm) + 1)) None
                = Done Null).
  { destruct Hcl as [Ht _ _]. by destruct (text req). }
  rewrite Hre. cbn [mbind res_bind].
  eexists. split; [reflexivity|]. split; [done|]. split; [done|].
  destruct (close_runs flag (set_text Null req)) as (req'' & Hc & _).
  - destruct Hcl as [Ht Hr Hq]. split; [done|done|done].
  - by exists req''.
Qed.

Lemma lit_has_nul s : x00 ∈ lit s.
Proof. unfold lit. rewrite elem_of_app. right. apply elem_of_cons. by left. Qed.

Lemma user_agent_text_witness :
  user_agent linux =
    Done (Block (String.list_byte_of_string "librequests/0.1 Linux/6.1" ++ [x00])).
Proof.
  rewrite (user_agent_text linux); [reflexivity | apply lit_has_nul..].
Defined.


Lemma requests_pt_runs_witness :
  exists curl' req',
    requests_pt curl_easy_init_handle fresh_req example_url (Block (lit "a=1"))
      two_headers 2 1 linux all_fine not_found = Done (0, curl', req') /\
    code req' = 404 /\ ok req' = 0 /\
    req_hdrv req' = Block [Block (lit "Accept: */*"); Block (lit "X-Trace: 1")] /\
    req_hdrc req' = 2.
Proof.
  destruct (requests_pt_runs curl_easy_init_handle fresh_req example_url
              (Block (lit "a=1")) two_headers 2 1 linux all_fine not_found [] [] [])
    as (curl' & req' & Hrun & _ & _ & [Hqv Hqc] & _ & _ & _ & Hc & Ho).
  - reflexivity.
  - apply lit_has_nul.
  - apply lit_has_nul.
  - split; [simpl; lia | sample_all sample_c_string].
  - reflexivity.
  - sample_all sample_event.
  - apply body_inv_init.
  - apply resp_inv_init.
  - by split.
  - reflexivity.
  - vm_compute. discriminate.
  - vm_compute. discriminate.
  - vm_compute. discriminate.
  - exists curl', req'. split; [exact Hrun|]. split; [exact Hc|].
    split; [exact Ho|]. split; [exact Hqv | exact Hqc].
Defined.

(** C4, witness: a POST without body with two custom headers where every
    append succeeds, and a POST without body where none does. *)
Lemma content_length_zero_can_be_lost_witness :
  (exists curl' req' opts,
     requests_pt curl_easy_init_handle fresh_req example_url Null
       two_headers 2 0 linux all_fine answered = Done (0, curl', req') /\
     performed curl' = [opts] /\
     opts CURLOPT_HTTPHEADER =
       OptList [lit "Content-Length: 0"; lit "Accept: */*"; lit "X-Trace: 1"]) /\
  (exists curl' req' opts,
     requests_pt curl_easy_init_handle fresh_req example_url Null
       Null 0 0 no_list all_fine answered = Done (0, curl', req') /\
     performed curl' = [opts] /\
     opts CURLOPT_HTTPHEADER = OptList []).
Proof.
  split.
  - destruct (content_length_zero_can_be_lost curl_easy_init_handle fresh_req
                example_url two_headers 2 0 linux all_fine answered [] [] [])
      as (curl' & req' & opts & Hrun & Hp & Hall & _).
    + reflexivity.
    + apply lit_has_nul.
    + apply lit_has_nul.
    + split; [simpl; lia | sample_all sample_c_string].
    + reflexivity.
    + sample_all sample_event.
    + apply body_inv_init.
    + apply resp_inv_init.
    + by split.
    + reflexivity.
    + vm_compute. discriminate.
    + vm_compute. discriminate.
    + vm_compute. discriminate.
    + exists curl', req', opts. split; [exact Hrun|]. split; [exact Hp|].
      rewrite Hall by reflexivity. reflexivity.
  - destruct (content_length_zero_can_be_lost curl_easy_init_handle fresh_req
                example_url Null 0 0 no_list all_fine answered [] [] [])
      as (curl' & req' & opts & Hrun & Hp & _ & Hlast).
    + reflexivity.
    + apply lit_has_nul.
    + apply lit_has_nul.
    + exact I.
    + reflexivity.
    + sample_all sample_event.
    + apply body_inv_init.
    + apply resp_inv_init.
    + by split.
    + reflexivity.
    + vm_compute. discriminate.
    + vm_compute. discriminate.
    + vm_compute. discriminate.
    + exists curl', req', opts. split; [exact Hrun|]. split; [exact Hp|].
      apply Hlast. reflexivity.
Defined.

Lemma requests_pt_request_witness :
  exists r opts,
    requests_put curl_easy_init_handle fresh_req example_url (Block (lit "a=1"))
      linux answered = Done r /\
    performed r.1.2 = [opts] /\
    opts CURLOPT_URL = OptStr example_url /\
    opts CURLOPT_POSTFIELDS = OptStr (Block (lit "a=1")) /\
    opts CURLOPT_CUSTOMREQUEST = OptStr (Block (lit "PUT")) /\
    opts CURLOPT_POST = Unset /\
    opts CURLOPT_HTTPHEADER = Unset.
Proof.
  eexists.
  match goal with |- exists opts, ?run = Done ?r /\ _ =>
    assert (Hrun : run = Done r) by (vm_compute; reflexivity)
  end.
  destruct (requests_pt_request curl_easy_init_handle fresh_req example_url
              (Block (lit "a=1")) Null 0 1 linux (fun _ => (true, true)) answered
              _ Hrun)
    as (opts & Hp & Hu & _ & Hd & Hm & Hpost & Hh).
  - vm_compute. discriminate.
  - exists opts. split; [exact Hrun|]. split; [exact Hp|]. split; [exact Hu|].
    split; [exact Hd|]. split; [exact Hm|]. split; [exact Hpost|].
    exact (Hh eq_refl eq_refl).
Defined.

Lemma closable_fresh : closable fresh_req.
Proof. apply usable_closable, usable_fresh. Qed.

Lemma requests_close_runs_witness :
  exists req',
    requests_close (0, fresh_req) = Done (1, req') /\
    text req' = Wild /\ resp_hdrv req' = Wild /\ req_hdrv req' = Wild.
Proof.
  destruct (requests_close_runs 0 fresh_req) as (req' & Hrun & Ht & Hr & Hq & _).
  - split; [discriminate | |]; exists []; (split; [by split | constructor]).
  - exists req'. split; [exact Hrun|]. split; [exact Ht|]. split; [exact Hr | exact Hq].
Defined.

Lemma requests_close_twice_witness :
  exists st',
    requests_close (0, fresh_req) = Done st' /\ requests_close st' = Undef.
Proof.
  eexists. split; [reflexivity|].
  apply (requests_close_twice (0, fresh_req)); [reflexivity | discriminate].
Defined.

Lemma requests_init_resets_witness :
  requests_init (0, fresh_req) (mk_init_allocs true true true)
                (Block curl_easy_init_handle)
  = Done (Block curl_easy_init_handle, (0, fresh_req)).
Proof.
  apply requests_init_resets. right.
  split; [discriminate | |]; exists []; (split; [by split | constructor]).
Defined.

Lemma requests_init_stale_flag_witness :
  exists flag,
    requests_init (1, garbage) (mk_init_allocs true true true)
                  (Block curl_easy_init_handle)
      = Done (Block curl_easy_init_handle, (flag, fresh_req)) /\
    requests_init (flag, garbage) (mk_init_allocs true true true)
                  (Block curl_easy_init_handle) = Undef.
Proof. apply requests_init_stale_flag. reflexivity. Defined.


Lemma resp_callback_copy_failure_witness :
  exists req',
    resp_callback (bytes "hello world") 1 6 fresh_req no_copy
      = Done (C.SIZE_MAX, req') /\
    size req' = 6 /\ body_inv req' [].
Proof.
  apply (resp_callback_copy_failure (bytes "hello world") 1 6 fresh_req no_copy []).
  - apply body_inv_init.
  - lia.
  - lia.
  - reflexivity.
  - vm_compute. discriminate.
  - vm_compute. lia.
  - eexists. reflexivity.
  - reflexivity.
Defined.

Lemma header_callback_copy_failure_witness :
  exists req',
    header_callback (crlf "Date: today") 1 13 fresh_req no_copy = Done (13, req') /\
    resp_hdrv req' = Block [Null] /\ resp_hdrc req' = 1.
Proof.
  destruct (header_callback_copy_failure date_line_no_copy fresh_req [])
    as (req' & Hrun & [Hv Hc] & _).
  - sample_c_line.
  - vm_compute. discriminate.
  - eexists. reflexivity.
  - reflexivity.
  - apply resp_inv_init.
  - vm_compute. reflexivity.
  - exists req'. split; [exact Hrun|]. split; [exact Hv | exact Hc].
Defined.

Lemma handle_is_spent_by_success_witness :
  exists r,
    requests_get curl_easy_init_handle fresh_req example_url linux answered
      = Done r /\
    requests_get r.1.2 r.2 example_url linux answered = Undef.
Proof.
  eexists.
  match goal with |- ?run = Done ?r /\ _ =>
    assert (Hrun : run = Done r) by (vm_compute; reflexivity)
  end.
  split; [exact Hrun|].
  match goal with |- requests_get (?r.1.2) _ _ _ _ = _ =>
    assert (Hrc : r.1.1 = C.CURLE_OK) by reflexivity;
    destruct (handle_is_spent_by_success curl_easy_init_handle fresh_req
                example_url Null Null 0 0 linux all_fine answered r
                (or_introl Hrun) Hrc r.2 example_url Null linux answered)
      as [Hget _]
  end.
  exact Hget.
Defined.

Lemma resp_callbacks_text_witness :
  exists req' buf,
    resp_callbacks [a0b; lone_c] fresh_req = Done req' /\
    text req' = Block buf /\
    Z.of_nat (length buf) = 5 /\
    CString.text_of buf = Done [x61; x63].
Proof.
  apply (resp_callbacks_text (1, garbage) Null Null 0 fresh_req [a0b; lone_c]).
  - reflexivity.
  - sample_all sample_delivered.
  - sample_all sample_alloc_ok.
  - vm_compute. reflexivity.
Defined.

Lemma resp_callback_growth_failure_witness :
  exists req',
    resp_callback (bytes "hello world") 1 6 fresh_req no_growth
      = Done (C.SIZE_MAX, req') /\
    text req' = Null /\ size req' = 0 /\
    exists req'', requests_close (0, req') = Done (1, req'').
Proof.
  apply resp_callback_growth_failure; [|reflexivity].
  split; [discriminate | |]; exists []; (split; [by split | constructor]).
Defined.

Lemma requests_close_flag st st' : requests_close st = Done st' -> st'.1 = 1.
Proof.
  unfold requests_close.
  destruct (free_strings _ _ (resp_hdrv _)) as [|r1]; cbn [mbind res_bind]; [done|].
  destruct (free_strings _ _ (req_hdrv _)) as [|q1]; cbn [mbind res_bind]; [done|].
  destruct (free (text _)); cbn [mbind res_bind]; [done|].
  destruct (free r1); cbn [mbind res_bind]; [done|].
  destruct (free q1); cbn [mbind res_bind]; [done|].
  by intros [= <-].
Qed.

(** X15.  When one of the allocations of [requests_init] fails, the call
    returns [NULL] and leaves [IS_FIRST] set, so that the next
    [requests_init] does not close the half-built context: with
    successful allocations it returns a fresh context. *)
Theorem requests_init_failure_recovers st a handle r st' handle2 :
  requests_init st a handle = Done (r, st') ->
  ia_text a && ia_req_hdrv a && ia_resp_hdrv a = false ->
  r = Null /\ st'.1 <> 0 /\
  requests_init st' (mk_init_allocs true true true) handle2 =
    Done (handle2, (0, fresh_req)).
Proof.
  intros H Ha.
  assert (Hflag : r = Null /\ st'.1 <> 0).
  { unfold requests_init in H.
    destruct (if st.1 =? 0 then requests_close st else Done st) as [|st1] eqn:E;
      simpl in H; [done|].
    assert (Hf1 : st1.1 <> 0).
    { destruct (st.1 =? 0) eqn:E0.
      - apply requests_close_flag in E. lia.
      - injection E as <-. by apply Z.eqb_neq. }
    destruct (ia_text a), (ia_req_hdrv a), (ia_resp_hdrv a); simpl in *;
      try done; by injection H as <- <-. }
  destruct Hflag as [Hr Hf]. split; [done|]. split; [done|].
  unfold requests_init. apply Z.eqb_neq in Hf. rewrite Hf. reflexivity.
Qed.

Lemma requests_init_failure_recovers_witness :
  exists st',
    requests_init (1, garbage) (mk_init_allocs true false true)
                  (Block curl_easy_init_handle) = Done (Null, st') /\
    requests_init st' (mk_init_allocs true true true) (Block curl_easy_init_handle)
      = Done (Block curl_easy_init_handle, (0, fresh_req)).
Proof.
  eexists. split; [reflexivity|].
  eapply (requests_init_failure_recovers (1, garbage)
            (mk_init_allocs true false true) (Block curl_easy_init_handle) Null _
            (Block curl_easy_init_handle)); reflexivity.
Defined.
